(** * NodeModal: the node content dialog of the JSON visualiser

    A shallow embedding of [src/features/modals/NodeModal/index.tsx]:
    the two pure helpers [normalizeNodeData] and [jsonPathToString], and the
    edit session of the [NodeModal] component (its React state, the effect
    that resets it, and the handlers [handleEdit], [handleCancel] and
    [handleSave]). *)

From Stdlib Require Import String Ascii List ZArith NArith Bool.
From Stdlib Require Import DecimalString DecimalPos DecimalZ.
Import ListNotations.
Local Open Scope string_scope.

Set Implicit Arguments.
Set Warnings "-register-all".

(* ================================================================== *)
(** * The fragment of JavaScript the component relies on *)
(* ================================================================== *)

(** Line feed, the double quote and the backslash, as one-character
    strings. *)
Definition LF : string := String (ascii_of_nat 10) EmptyString.
Definition DQUOTE : string := String (ascii_of_nat 34) EmptyString.
Definition BACKSLASH : string := String (ascii_of_nat 92) EmptyString.

(** Numbers.  The component never computes with a number, it only prints
    it.  The model carries integers: they stand for the safe integers
    ([safe_integer], at most 2^53 - 1 in absolute value), each of which is a
    number of its own that [Number::toString] prints as its decimal numeral.
    The numbers that are not integers, [NaN] and the infinities have no term
    in the model. *)
Definition Number_toString (n : Z) : string :=
  NilZero.string_of_int (Z.to_int n).

(** The values a row of a node carries ([NodeRow.value] is declared as
    [string | number | null | boolean]); [PUndefined] is a missing value. *)
Inductive Prim : Type :=
| PUndefined
| PNull
| PBool (b : bool)
| PNumber (n : Z)
| PString (s : string).

(** [ToString], as applied by a template literal [`${v}`]. *)
Definition ToString (v : Prim) : string :=
  match v with
  | PUndefined => "undefined"
  | PNull => "null"
  | PBool true => "true"
  | PBool false => "false"
  | PNumber n => Number_toString n
  | PString s => s
  end.

(** Truthiness of a [string | null] ([null] is [None]). *)
Definition truthy (k : option string) : bool :=
  match k with
  | None => false
  | Some EmptyString => false
  | Some _ => true
  end.

(** [Array.prototype.join] on an array of strings is [String.concat]. *)
Definition join (sep : string) (parts : list string) : string :=
  String.concat sep parts.

(** ** Ordinary objects

    [const obj = {}] followed by [obj[k] = v].  An ordinary object keeps its
    own properties in creation order; the only accessor it inherits from
    [Object.prototype] is [__proto__], whose setter changes the prototype
    when given [null] (or an object) and ignores every other value. *)
Record JsObject : Type := {
  proto_null : bool;                    (* [[Prototype]] has become null *)
  own : list (string * Prim)            (* own properties, creation order *)
}.

Definition empty_object : JsObject := {| proto_null := false; own := [] |}.

Fixpoint has_own (k : string) (ps : list (string * Prim)) : bool :=
  match ps with
  | [] => false
  | (k', _) :: rest => if String.eqb k k' then true else has_own k rest
  end.

Fixpoint get_own (k : string) (ps : list (string * Prim)) : option Prim :=
  match ps with
  | [] => None
  | (k', v) :: rest => if String.eqb k k' then Some v else get_own k rest
  end.

Fixpoint update_own (k : string) (v : Prim) (ps : list (string * Prim))
  : list (string * Prim) :=
  match ps with
  | [] => []
  | (k', v') :: rest =>
      if String.eqb k k' then (k', v) :: rest
      else (k', v') :: update_own k v rest
  end.

(** [obj[k] = v]. *)
Definition set_property (obj : JsObject) (k : string) (v : Prim) : JsObject :=
  if has_own k (own obj) then
    {| proto_null := proto_null obj; own := update_own k v (own obj) |}
  else if String.eqb k "__proto__" && negb (proto_null obj) then
    match v with
    | PNull => {| proto_null := true; own := own obj |}
    | _ => obj
    end
  else
    {| proto_null := proto_null obj; own := own obj ++ [(k, v)] |}.

(** ** Property enumeration order

    [OrdinaryOwnPropertyKeys]: the keys that are array indices (canonical
    decimal numerals below 2^32 - 1) come first, in ascending numeric order,
    then the other keys in creation order. *)
Definition digit_of (c : ascii) : option N :=
  let n := N_of_ascii c in
  if (48 <=? n)%N && (n <=? 57)%N then Some (n - 48)%N else None.

Fixpoint digits_value (acc : N) (s : string) : option N :=
  match s with
  | EmptyString => Some acc
  | String c rest =>
      match digit_of c with
      | Some d => digits_value (acc * 10 + d)%N rest
      | None => None
      end
  end.

Definition array_index (k : string) : option N :=
  match k with
  | EmptyString => None
  | String c rest =>
      if Ascii.eqb c "0" && negb (String.eqb rest EmptyString) then None
      else match digits_value 0 k with
           | Some n => if (n <? 4294967295)%N then Some n else None
           | None => None
           end
  end.

Fixpoint insert_index (e : N * (string * Prim)) (l : list (N * (string * Prim)))
  : list (N * (string * Prim)) :=
  match l with
  | [] => [e]
  | e' :: rest =>
      if (fst e <=? fst e')%N then e :: l else e' :: insert_index e rest
  end.

Fixpoint index_entries (ps : list (string * Prim)) : list (N * (string * Prim)) :=
  match ps with
  | [] => []
  | (k, v) :: rest =>
      match array_index k with
      | Some n => insert_index (n, (k, v)) (index_entries rest)
      | None => index_entries rest
      end
  end.

Definition named_entries (ps : list (string * Prim)) : list (string * Prim) :=
  filter (fun kv => match array_index (fst kv) with
                    | Some _ => false
                    | None => true
                    end) ps.

Definition own_entries (obj : JsObject) : list (string * Prim) :=
  map snd (index_entries (own obj)) ++ named_entries (own obj).

(** ** [JSON.stringify]

    [QuoteJSONString]: the quote, the backslash and the control characters
    are escaped, every other character is copied. *)
Definition hex_digit (n : N) : ascii :=
  if (n <? 10)%N then ascii_of_N (48 + n) else ascii_of_N (87 + n).

Definition quote_char (c : ascii) : string :=
  let n := N_of_ascii c in
  if (n =? 8)%N then BACKSLASH ++ "b"
  else if (n =? 9)%N then BACKSLASH ++ "t"
  else if (n =? 10)%N then BACKSLASH ++ "n"
  else if (n =? 12)%N then BACKSLASH ++ "f"
  else if (n =? 13)%N then BACKSLASH ++ "r"
  else if (n =? 34)%N then BACKSLASH ++ DQUOTE
  else if (n =? 92)%N then BACKSLASH ++ BACKSLASH
  else if (n <? 32)%N then
    BACKSLASH ++ "u00"
      ++ String (hex_digit (n / 16)) (String (hex_digit (n mod 16)) EmptyString)
  else String c EmptyString.

Fixpoint quote_chars (s : string) : string :=
  match s with
  | EmptyString => EmptyString
  | String c rest => quote_char c ++ quote_chars rest
  end.

Definition QuoteJSONString (s : string) : string :=
  DQUOTE ++ quote_chars s ++ DQUOTE.

(** [SerializeJSONProperty] on a row value; [None] is the [undefined] result
    that makes [SerializeJSONObject] skip the property. *)
Definition SerializeJSONProperty (v : Prim) : option string :=
  match v with
  | PUndefined => None
  | PNull => Some "null"
  | PBool true => Some "true"
  | PBool false => Some "false"
  | PNumber n => Some (Number_toString n)
  | PString s => Some (QuoteJSONString s)
  end.

Fixpoint spaces (n : nat) : string :=
  match n with
  | O => EmptyString
  | S m => " " ++ spaces m
  end.

(** [SerializeJSONObject] at the top level, with the gap made of [space]
    blanks ([JSON.stringify(obj, null, space)], [space] at most 10). *)
Definition members (gap : string) (entries : list (string * Prim)) : list string :=
  flat_map (fun kv =>
              match SerializeJSONProperty (snd kv) with
              | None => []
              | Some strP =>
                  [QuoteJSONString (fst kv) ++ ":"
                     ++ (if String.eqb gap EmptyString then EmptyString else " ") ++ strP]
              end) entries.

Definition JSON_stringify (obj : JsObject) (space : nat) : string :=
  let gap := spaces (Nat.min 10 space) in
  let stepback := EmptyString in
  let indent := stepback ++ gap in
  let partial := members gap (own_entries obj) in
  match partial with
  | [] => "{}"
  | _ =>
      if String.eqb gap EmptyString then "{" ++ join "," partial ++ "}"
      else
        let separator := "," ++ LF ++ indent in
        "{" ++ LF ++ indent ++ join separator partial ++ LF ++ stepback ++ "}"
  end.

(* ================================================================== *)
(** * The graph node shown by the dialog *)
(* ================================================================== *)

(** [row.type !== "array" && row.type !== "object"] is the negation of this
    test; [None] is a row that carries no type. *)
Definition is_container (type : option string) : bool :=
  match type with
  | Some tag => String.eqb tag "array" || String.eqb tag "object"
  | None => false
  end.

Module NodeRow.
(** Modelled from the spec: [NodeData] is declared in [types/graph], outside
    this file.  A row of the [text] of a node optionally carries a key
    ([string | null]), a value (a string, a number, a boolean or [null]) and
    a type tag. *)
Record t : Type := mk {
  key : option string;
  value : Prim;
  type : option string
}.
End NodeRow.

(** A segment of a [JSONPath]: a property name or an array index. *)
Inductive Segment : Type :=
| SegKey (name : string)
| SegIndex (index : Z).

Definition JSONPath : Type := list Segment.

Module NodeData.
(** Modelled from the spec: the node, of which the dialog reads the rows
    ([text]) and the path from the root of the document, which is optional
    ([path?: JSONPath]). *)
Record t : Type := mk {
  text : list NodeRow.t;
  path : option JSONPath
}.
End NodeData.

(* ================================================================== *)
(** * The two helpers *)
(* ================================================================== *)

(** [nodeRows.forEach(row => ...)], the body of the loop. *)
Definition add_row (obj : JsObject) (row : NodeRow.t) : JsObject :=
  if negb (is_container (NodeRow.type row)) then
    match NodeRow.key row with
    | Some k => if truthy (Some k) then set_property obj k (NodeRow.value row) else obj
    | None => obj
    end
  else obj.

(** [normalizeNodeData]; [None] is an [undefined] argument. *)
Definition normalizeNodeData (nodeRows : option (list NodeRow.t)) : string :=
  match nodeRows with
  | None => "{}"
  | Some [] => "{}"
  | Some ((row0 :: _) as rows) =>
      if (Nat.eqb (length rows) 1) && negb (truthy (NodeRow.key row0))
      then ToString (NodeRow.value row0)
      else JSON_stringify (fold_left add_row rows empty_object) 2
  end.

(** The mapped segment of [jsonPathToString], after [join] has turned it
    into a string. *)
Definition segment_text (seg : Segment) : string :=
  match seg with
  | SegIndex n => Number_toString n
  | SegKey name => DQUOTE ++ name ++ DQUOTE
  end.

(** [jsonPathToString]; [None] is an [undefined] argument. *)
Definition jsonPathToString (path : option JSONPath) : string :=
  match path with
  | None => "$"
  | Some [] => "$"
  | Some segs => "$[" ++ join "][" (map segment_text segs) ++ "]"
  end.

(* ================================================================== *)
(** * What the component imports *)
(* ================================================================== *)

(** The values [JSON.parse] returns. *)
Inductive Json : Type :=
| JNull
| JBool (b : bool)
| JNumber (n : Z)
| JString (s : string)
| JArray (items : list Json)
| JObject (props : list (string * Json)).

(** A thrown [Error] object. *)
Record JsError : Type := {
  name : string;
  message : string
}.

(** [String(err)], that is [Error.prototype.toString]. *)
Definition String_of_error (err : JsError) : string :=
  if String.eqb (name err) EmptyString then message err
  else if String.eqb (message err) EmptyString then name err
  else name err ++ ": " ++ message err.

(** [err?.message || String(err)]. *)
Definition error_text (err : JsError) : string :=
  if String.eqb (message err) EmptyString then String_of_error err else message err.

(** A call either returns or throws. *)
Definition Completion (A : Type) : Type := (JsError + A)%type.

Module Edit.
(** A text edit of [jsonc-parser]. *)
Record t : Type := mk {
  offset : nat;
  length : nat;
  content : string
}.
End Edit.

Record FormattingOptions : Type := {
  insertSpaces : bool;
  tabSize : nat
}.

Record ModificationOptions : Type := {
  formattingOptions : FormattingOptions
}.

(** [JSON.parse] and the two functions imported from [jsonc-parser].  Their
    code is not part of the component: the session is verified for every
    behaviour they may have. *)
Class Imports : Type := {
  JSON_parse : string -> Completion Json;
  modify : string -> JSONPath -> Json -> ModificationOptions -> Completion (list Edit.t);
  applyEdits : string -> list Edit.t -> Completion string
}.

(* ================================================================== *)
(** * The edit session *)
(* ================================================================== *)

(** The argument of [useFile]'s [setContents]. *)
Record SetContents : Type := {
  contents : string;
  hasChanges : bool;
  skipUpdate : bool
}.

(** Everything a handler of the dialog reads or writes: the three stores,
    the [opened] prop, and the three [React.useState] cells. *)
Record Session : Type := {
  selectedNode : option NodeData.t;     (* useGraph: state.selectedNode *)
  json : string;                        (* useJson: the document text *)
  fileContents : string;                (* useFile: contents *)
  fileHasChanges : bool;                (* useFile: hasChanges *)
  opened : bool;                        (* prop *)
  editing : bool;                       (* useState(false) *)
  value : string;                       (* useState of the draft text *)
  error : option string                 (* useState<string | null>(null) *)
}.

(** ** A state and exception monad for the handlers *)
Definition Handler (A : Type) : Type := Session -> Completion A * Session.

Definition ret {A} (a : A) : Handler A := fun s => (inr a, s).

Definition bind {A B} (m : Handler A) (k : A -> Handler B) : Handler B :=
  fun s =>
    match m s with
    | (inr a, s') => k a s'
    | (inl err, s') => (inl err, s')
    end.

(** The result of an imported call, inside a handler. *)
Definition call {A} (c : Completion A) : Handler A := fun s => (c, s).

(** [try { body } catch (err) { handler }]: what [body] wrote before it
    threw stays written. *)
Definition try_catch {A} (body : Handler A) (handler : JsError -> Handler A)
  : Handler A :=
  fun s =>
    match body s with
    | (inr a, s') => (inr a, s')
    | (inl err, s') => handler err s'
    end.

Declare Scope handler_scope.
Delimit Scope handler_scope with handler.
Notation "x <- m ;; k" := (bind m (fun x => k))
  (at level 61, m at next level, right associativity) : handler_scope.
Notation "m ;; k" := (bind m (fun _ => k))
  (at level 61, right associativity) : handler_scope.

(** The state a handler leaves. *)
Definition run {A} (m : Handler A) (s : Session) : Session := snd (m s).

Definition observe {A} (f : Session -> A) : Handler A := fun s => (inr (f s), s).
Definition update (f : Session -> Session) : Handler unit :=
  fun s => (inr tt, f s).

(** The setters of the three state cells. *)
Definition setEditing (b : bool) : Handler unit :=
  update (fun s => {| selectedNode := selectedNode s; json := json s;
                     fileContents := fileContents s;
                     fileHasChanges := fileHasChanges s; opened := opened s;
                     editing := b; value := value s; error := error s |}).

Definition setValue (v : string) : Handler unit :=
  update (fun s => {| selectedNode := selectedNode s; json := json s;
                     fileContents := fileContents s;
                     fileHasChanges := fileHasChanges s; opened := opened s;
                     editing := editing s; value := v; error := error s |}).

Definition setError (e : option string) : Handler unit :=
  update (fun s => {| selectedNode := selectedNode s; json := json s;
                     fileContents := fileContents s;
                     fileHasChanges := fileHasChanges s; opened := opened s;
                     editing := editing s; value := value s; error := e |}).

(** [useJson]'s [getJson]. *)
Definition getJson : Handler string := observe json.

(** Modelled from the spec: [useJson]'s [setJson] is declared outside this
    file; it replaces the whole document text of the shared store. *)
Definition setJson (newJson : string) : Handler unit :=
  update (fun s => {| selectedNode := selectedNode s; json := newJson;
                     fileContents := fileContents s;
                     fileHasChanges := fileHasChanges s; opened := opened s;
                     editing := editing s; value := value s; error := error s |}).

(** Modelled from the spec: [useFile]'s [setContents] is declared outside
    this file; it stores the contents it is given and the flag that tells
    whether there are unsaved changes. *)
Definition setFileContents (a : SetContents) : Handler unit :=
  update (fun s => {| selectedNode := selectedNode s; json := json s;
                     fileContents := contents a;
                     fileHasChanges := hasChanges a; opened := opened s;
                     editing := editing s; value := value s; error := error s |}).

(** Modelled from the spec: the [onClose] prop is supplied by the parent; it
    closes the dialog. *)
Definition onClose : Handler unit :=
  update (fun s => {| selectedNode := selectedNode s; json := json s;
                     fileContents := fileContents s;
                     fileHasChanges := fileHasChanges s; opened := false;
                     editing := editing s; value := value s; error := error s |}).

(** [nodeData?.text ?? []]. *)
Definition rows_of (nodeData : option NodeData.t) : list NodeRow.t :=
  match nodeData with
  | Some n => NodeData.text n
  | None => []
  end.

(** The body of [React.useEffect(..., [nodeData, opened])]. *)
Definition resetEffect : Handler unit :=
  (setEditing false ;;
   setError None ;;
   nodeData <- observe selectedNode ;;
   setValue (normalizeNodeData (Some (rows_of nodeData))))%handler.

Definition handleEdit : Handler unit := setEditing true.

Definition handleCancel : Handler unit :=
  (setEditing false ;;
   setError None ;;
   nodeData <- observe selectedNode ;;
   setValue (normalizeNodeData (Some (rows_of nodeData))))%handler.

(** The [onChange] of the text area. *)
Definition handleChange (typed : string) : Handler unit := setValue typed.

(** [() => { onClose(); handleCancel(); }], of the close button and of the
    modal itself. *)
Definition handleClose : Handler unit := (onClose ;; handleCancel)%handler.

(** [nodeData.path ?? []]. *)
Definition path_of (nodeData : NodeData.t) : JSONPath :=
  match NodeData.path nodeData with
  | Some p => p
  | None => []
  end.

Section Save.
Context {imports : Imports}.

Definition handleSave : Handler unit :=
  (nodeData <- observe selectedNode ;;
   match nodeData with
   | None => ret tt
   | Some nodeData =>
       originalJson <- getJson ;;
       value <- observe value ;;
       parsed <- try_catch (call (JSON_parse value))
                           (fun _ => ret (JString value)) ;;
       try_catch
         (let path := path_of nodeData in
          edits <- call (modify originalJson path parsed
                           {| formattingOptions :=
                                {| insertSpaces := true; tabSize := 2 |} |}) ;;
          newJson <- call (applyEdits originalJson edits) ;;
          setJson newJson ;;
          setFileContents {| contents := newJson; hasChanges := false;
                             skipUpdate := true |} ;;
          setEditing false ;;
          onClose)
         (fun err => setError (Some (error_text err)))
   end)%handler.
End Save.

(** ** The dialog as a transition system

    What can happen to the dialog: the five things the user can do, and the
    two changes of the dependencies of the effect that come from outside. *)
Inductive Event : Type :=
| ClickEdit
| TypeText (typed : string)
| ClickCancel
| ClickSave
| ClickClose
| NodeChanged (nodeData : option NodeData.t)   (* useGraph selects a node *)
| Reopen.                                      (* the parent sets [opened] *)

Definition selectNode (nodeData : option NodeData.t) : Handler unit :=
  update (fun s => {| selectedNode := nodeData; json := json s;
                      fileContents := fileContents s;
                      fileHasChanges := fileHasChanges s; opened := opened s;
                      editing := editing s; value := value s; error := error s |}).

Definition setOpened (b : bool) : Handler unit :=
  update (fun s => {| selectedNode := selectedNode s; json := json s;
                      fileContents := fileContents s;
                      fileHasChanges := fileHasChanges s; opened := b;
                      editing := editing s; value := value s; error := error s |}).

(** After a handler, React renders again and runs the effect when [opened],
    one of its two dependencies, is no longer the same. *)
Definition rerender (before after : Session) : Session :=
  if Bool.eqb (opened before) (opened after) then after
  else run resetEffect after.

Section Dispatch.
Context {imports : Imports}.

Definition dispatch (e : Event) (s : Session) : Session :=
  match e with
  | ClickEdit => run handleEdit s
  | TypeText typed => run (handleChange typed) s
  | ClickCancel => run handleCancel s
  | ClickSave => rerender s (run handleSave s)
  | ClickClose => rerender s (run handleClose s)
  | NodeChanged nodeData => run resetEffect (run (selectNode nodeData) s)
  | Reopen => rerender s (run (setOpened true) s)
  end.

(** The two calls of the [try] block of [handleSave], as one patcher. *)
Definition patchDocument (document : string) (path : JSONPath) (newValue : Json)
  : Completion string :=
  match modify document path newValue
          {| formattingOptions := {| insertSpaces := true; tabSize := 2 |} |} with
  | inl err => inl err
  | inr edits => applyEdits document edits
  end.

(** The value the draft text stands for: [JSON.parse(value)], or the text
    itself when it does not parse. *)
Definition parsedDraft (s : Session) : Json :=
  match JSON_parse (value s) with
  | inr parsed => parsed
  | inl _ => JString (value s)
  end.
End Dispatch.

(** The session after a save that went through. *)
Definition committed (s : Session) (newJson : string) : Session :=
  {| selectedNode := selectedNode s; json := newJson;
     fileContents := newJson; fileHasChanges := false; opened := false;
     editing := false; value := value s; error := error s |}.

(** The session after a save whose patch threw [err]. *)
Definition rejected (s : Session) (err : JsError) : Session :=
  {| selectedNode := selectedNode s; json := json s;
     fileContents := fileContents s; fileHasChanges := fileHasChanges s;
     opened := opened s; editing := editing s; value := value s;
     error := Some (error_text err) |}.

(** [{error && <Text color="red">{error}</Text>}]: the message shown under
    the path, if any. *)
Definition error_banner (s : Session) : option string :=
  match error s with
  | None => None
  | Some EmptyString => None
  | Some msg => Some msg
  end.

(** The two stores, as a pair: document text, file contents and flag. *)
Definition stores (s : Session) : string * (string * bool) :=
  (json s, (fileContents s, fileHasChanges s)).

(* ================================================================== *)
(** * An instance of the imports, to run the session *)
(* ================================================================== *)

(** The instance reads the scalar JSON literals and patches the root of the
    document only; the examples below run the handlers with it. *)
Module Scalar.

Definition SyntaxError (text : string) : JsError :=
  {| name := "SyntaxError"; message := "Unexpected token in JSON: " ++ text |}.

Definition plain_char (c : ascii) : bool :=
  let n := N_of_ascii c in
  negb ((n <? 32)%N || (n =? 34)%N || (n =? 92)%N).

(** The characters of a string literal up to its closing quote. *)
Fixpoint string_body (s : string) : option string :=
  match s with
  | EmptyString => None
  | String c rest =>
      if Ascii.eqb c (ascii_of_nat 34) then
        if String.eqb rest EmptyString then Some EmptyString else None
      else if plain_char c then
        match string_body rest with
        | Some body => Some (String c body)
        | None => None
        end
      else None
  end.

Definition natural (s : string) : option Z :=
  match s with
  | EmptyString => None
  | String c rest =>
      if Ascii.eqb c "0" && negb (String.eqb rest EmptyString) then None
      else match digits_value 0 s with
           | Some n => Some (Z.of_N n)
           | None => None
           end
  end.

Definition parse (text : string) : Completion Json :=
  if String.eqb text "null" then inr JNull
  else if String.eqb text "true" then inr (JBool true)
  else if String.eqb text "false" then inr (JBool false)
  else match text with
       | EmptyString => inl (SyntaxError text)
       | String c rest =>
           if Ascii.eqb c (ascii_of_nat 34) then
             match string_body rest with
             | Some body => inr (JString body)
             | None => inl (SyntaxError text)
             end
           else if Ascii.eqb c "-" then
             match natural rest with
             | Some n => inr (JNumber (- n))
             | None => inl (SyntaxError text)
             end
           else
             match natural text with
             | Some n => inr (JNumber n)
             | None => inl (SyntaxError text)
             end
       end.

(** [JSON.stringify(value)] without indentation. *)
Fixpoint stringify (v : Json) : string :=
  match v with
  | JNull => "null"
  | JBool true => "true"
  | JBool false => "false"
  | JNumber n => Number_toString n
  | JString s => QuoteJSONString s
  | JArray items => "[" ++ join "," (map stringify items) ++ "]"
  | JObject props =>
      "{" ++ join "," (map (fun kv => QuoteJSONString (fst kv) ++ ":"
                                        ++ stringify (snd kv)) props) ++ "}"
  end.

(** Only the root can be addressed: the edit replaces the whole text. *)
Definition modify_root (text : string) (path : JSONPath) (v : Json)
           (options : ModificationOptions) : Completion (list Edit.t) :=
  match path with
  | [] => inr [Edit.mk 0 (String.length text) (stringify v)]
  | _ :: _ => inl {| name := "Error"; message := "Can not address the path" |}
  end.

Definition applyEdit (text : string) (e : Edit.t) : string :=
  substring 0 (Edit.offset e) text ++ Edit.content e
    ++ substring (Edit.offset e + Edit.length e)
         (String.length text - (Edit.offset e + Edit.length e)) text.

(** The edits are applied from the last one, and may not overlap. *)
Fixpoint apply_backwards (text : string) (lastModifiedOffset : nat)
         (reversed : list Edit.t) : Completion string :=
  match reversed with
  | [] => inr text
  | e :: rest =>
      if Nat.leb (Edit.offset e + Edit.length e) lastModifiedOffset
      then apply_backwards (applyEdit text e) (Edit.offset e) rest
      else inl {| name := "Error"; message := "Overlapping edit" |}
  end.

Definition apply_edits (text : string) (edits : list Edit.t) : Completion string :=
  apply_backwards text (String.length text) (rev edits).

Definition imports : Imports :=
  {| JSON_parse := parse; modify := modify_root; applyEdits := apply_edits |}.

End Scalar.

(** A session to start from: the document is [42], its root is selected. *)
Definition root_node : NodeData.t :=
  NodeData.mk [NodeRow.mk None (PNumber 42) (Some "number")] (Some []).

Definition session_42 (draft : string) : Session :=
  {| selectedNode := Some root_node; json := "42"; fileContents := "42";
     fileHasChanges := true; opened := true; editing := true;
     value := draft; error := None |}.


(* ================================================================== *)
(** * The contracts of the two helpers, in the words of the specification *)
(* ================================================================== *)

(** A segment as the specification renders it: [[N]] for an integer,
    [["key"]] for a string, the key copied as it is. *)
Definition spec_segment (seg : Segment) : string :=
  match seg with
  | SegIndex n => "[" ++ Number_toString n ++ "]"
  | SegKey key => "[" ++ DQUOTE ++ key ++ DQUOTE ++ "]"
  end.

(** A row has a key when its key is truthy, the test the component applies
    wherever it looks at a key. *)
Definition has_key (row : NodeRow.t) : bool := truthy (NodeRow.key row).

Definition key_of (row : NodeRow.t) : string :=
  match NodeRow.key row with
  | Some k => k
  | None => EmptyString
  end.

(** A row that is neither of type array nor of type object. *)
Definition scalar_row (row : NodeRow.t) : bool :=
  negb (is_container (NodeRow.type row)).

(** The assignment the loop performs for a row it keeps. *)
Definition assign (obj : JsObject) (row : NodeRow.t) : JsObject :=
  set_property obj (key_of row) (NodeRow.value row).

(** The first two cases of [normalize]: no row, or one row without a key. *)
Definition bare_case (rows : list NodeRow.t) : bool :=
  match rows with
  | [row] => negb (has_key row)
  | _ => false
  end.

Definition object_case (rows : list NodeRow.t) : bool :=
  match rows with
  | [] => false
  | _ => negb (bare_case rows)
  end.

(** The flat object of the specification: the rows whose type is array or
    object are excluded, each other row that has a key sets that key to its
    value. *)
Definition spec_flat_object (rows : list NodeRow.t) : JsObject :=
  fold_left assign
            (filter (fun row => scalar_row row && has_key row) rows)
            empty_object.

(** The value the flat mapping gives to a key: that of the last row with
    this key whose type is neither array nor object. *)
Fixpoint spec_lookup (k : string) (rows : list NodeRow.t) : option Prim :=
  match rows with
  | [] => None
  | row :: rest =>
      match spec_lookup k rest with
      | Some v => Some v
      | None =>
          if scalar_row row && String.eqb (key_of row) k
          then Some (NodeRow.value row) else None
      end
  end.

(** JSON pretty-printed with an indentation of two blanks: one line per
    entry, [  "key": value], between the two braces. *)
Definition spec_pretty (entries : list (string * Prim)) : string :=
  let lines :=
    flat_map (fun kv =>
                match SerializeJSONProperty (snd kv) with
                | Some text => ["  " ++ QuoteJSONString (fst kv) ++ ": " ++ text]
                | None => []
                end) entries in
  match lines with
  | [] => "{}"
  | _ => "{" ++ LF ++ join ("," ++ LF) lines ++ LF ++ "}"
  end.

(* ================================================================== *)
(** * The document patcher of the specification *)
(* ================================================================== *)

Module DocumentPatcher.

(** The patcher of the component is [modify] followed by [applyEdits], two
    functions of [jsonc-parser]; the specification gives its contract.  The
    document is taken here as the value its text denotes: the layout of the
    text is left out. *)
Inductive PatchError : Type :=
| NoSuchLocation.

Fixpoint member (k : string) (props : list (string * Json)) : option Json :=
  match props with
  | [] => None
  | (k', v) :: rest => if String.eqb k k' then Some v else member k rest
  end.

Fixpoint set_member (k : string) (v : Json) (props : list (string * Json))
  : list (string * Json) :=
  match props with
  | [] => []
  | (k', v') :: rest =>
      if String.eqb k k' then (k', v) :: rest
      else (k', v') :: set_member k v rest
  end.

Fixpoint set_item (i : nat) (v : Json) (items : list Json) : list Json :=
  match items, i with
  | [], _ => []
  | _ :: rest, O => v :: rest
  | x :: rest, S j => x :: set_item j v rest
  end.

(** The value a segment addresses inside a value. *)
Definition child (document : Json) (seg : Segment) : option Json :=
  match seg, document with
  | SegKey k, JObject props => member k props
  | SegIndex i, JArray items =>
      if (i <? 0)%Z then None else nth_error items (Z.to_nat i)
  | _, _ => None
  end.

Definition set_child (document : Json) (seg : Segment) (v : Json) : Json :=
  match seg, document with
  | SegKey k, JObject props => JObject (set_member k v props)
  | SegIndex i, JArray items => JArray (set_item (Z.to_nat i) v items)
  | _, _ => document
  end.

(** Re-reading a path: the value at [path], if the path addresses one. *)
Fixpoint resolve (document : Json) (path : JSONPath) : option Json :=
  match path with
  | [] => Some document
  | seg :: rest =>
      match child document seg with
      | Some inner => resolve inner rest
      | None => None
      end
  end.

(** Modelled from the spec: the code of [modify] and [applyEdits] is not
    part of the component.  [patch(document, path, newValue)] changes only
    the value at [path] inside [document], and fails with a [PatchError]
    when the path does not address a location of the document. *)
Fixpoint patch (document : Json) (path : JSONPath) (newValue : Json)
  : PatchError + Json :=
  match path with
  | [] => inr newValue
  | seg :: rest =>
      match child document seg with
      | None => inl NoSuchLocation
      | Some inner =>
          match patch inner rest newValue with
          | inl err => inl err
          | inr inner' => inr (set_child document seg inner')
          end
      end
  end.

Definition is_scalar (v : Json) : bool :=
  match v with
  | JArray _ | JObject _ => false
  | _ => true
  end.

End DocumentPatcher.

(** A node below the root of the document [42], which has no such place. *)
Definition stale_node : NodeData.t :=
  NodeData.mk [NodeRow.mk (Some "a") (PNumber 1) (Some "number")] (Some [SegKey "a"]).

Definition stale_session : Session :=
  {| selectedNode := Some stale_node; json := "42"; fileContents := "42";
     fileHasChanges := true; opened := true; editing := true;
     value := "1"; error := None |}.

(* ================================================================== *)
(** * What the dialog renders *)
(* ================================================================== *)

(** The buttons of the header row. *)
Inductive Button : Type :=
| EditButton
| SaveButton
| CancelButton
| CloseButton.

(** The content area: the highlighted code, or the text area of the draft. *)
Inductive Content : Type :=
| CodeHighlight (code : string)
| Textarea (draft : string).

Record View : Type := {
  modalOpened : bool;                   (* <Modal opened={opened}> *)
  buttons : list Button;
  content : Content;
  pathCode : string;                    (* the code under "JSON Path" *)
  errorText : option string
}.

(** [nodeData?.path]. *)
Definition path_prop (nodeData : option NodeData.t) : option JSONPath :=
  match nodeData with
  | Some n => NodeData.path n
  | None => None
  end.

(** The [return (...)] of [NodeModal]. *)
Definition render (s : Session) : View :=
  {| modalOpened := opened s;
     buttons := (if negb (editing s) then [EditButton]
                 else [SaveButton; CancelButton]) ++ [CloseButton];
     content := if negb (editing s)
                then CodeHighlight (normalizeNodeData (Some (rows_of (selectedNode s))))
                else Textarea (value s);
     pathCode := jsonPathToString (path_prop (selectedNode s));
     errorText := error_banner s |}.

Definition Button_eqb (a b : Button) : bool :=
  match a, b with
  | EditButton, EditButton | SaveButton, SaveButton
  | CancelButton, CancelButton | CloseButton, CloseButton => true
  | _, _ => false
  end.

Definition shows (v : View) (b : Button) : bool :=
  modalOpened v && existsb (Button_eqb b) (buttons v).

Definition shows_textarea (v : View) : bool :=
  modalOpened v && match content v with
                   | Textarea _ => true
                   | CodeHighlight _ => false
                   end.

(** An event can happen when the widget that raises it is on the screen; the
    two changes that come from outside can always happen. *)
Definition enabled (e : Event) (s : Session) : bool :=
  match e with
  | ClickEdit => shows (render s) EditButton
  | TypeText _ => shows_textarea (render s)
  | ClickCancel => shows (render s) CancelButton
  | ClickSave => shows (render s) SaveButton
  | ClickClose => shows (render s) CloseButton
  | NodeChanged _ => true
  | Reopen => true
  end.

(** The component when it is mounted: the three [useState] cells hold their
    initial values. *)
Definition mounted (nodeData : option NodeData.t) (document : string)
           (file : string) (changes : bool) (isOpened : bool) : Session :=
  {| selectedNode := nodeData; json := document; fileContents := file;
     fileHasChanges := changes; opened := isOpened;
     editing := false; value := EmptyString; error := None |}.

Section Reachable.
Context {imports : Imports}.

(** The sessions the dialog can be in: after the effect of the first render,
    and after any event that can happen. *)
Inductive reachable : Session -> Prop :=
| reachable_mount nodeData document file changes isOpened :
    reachable (run resetEffect (mounted nodeData document file changes isOpened))
| reachable_step s e :
    reachable s -> enabled e s = true -> reachable (dispatch e s).
End Reachable.

(* ================================================================== *)
(** * Rows and paths with ordinary keys *)
(* ================================================================== *)

Fixpoint string_forall (p : ascii -> bool) (s : string) : bool :=
  match s with
  | EmptyString => true
  | String c rest => p c && string_forall p rest
  end.

(** A key that holds no double quote. *)
Definition quote_free (key : string) : bool :=
  string_forall (fun c => negb (Ascii.eqb c (ascii_of_nat 34))) key.

Definition segment_quote_free (seg : Segment) : bool :=
  match seg with
  | SegKey key => quote_free key
  | SegIndex _ => true
  end.

(** The rows the loop of [normalizeNodeData] keeps, and the entry each of
    them assigns. *)
Definition kept_rows (rows : list NodeRow.t) : list NodeRow.t :=
  filter (fun row => scalar_row row && has_key row) rows.

Definition entry_of (row : NodeRow.t) : string * Prim :=
  (key_of row, NodeRow.value row).

(** A key that is neither [__proto__] nor an array index. *)
Definition ordinary_key (k : string) : bool :=
  negb (String.eqb k "__proto__")
  && match array_index k with
     | Some _ => false
     | None => true
     end.

(** A node whose only row is a string without a key. *)
Definition string_node (text : string) (path : option JSONPath) : NodeData.t :=
  NodeData.mk [NodeRow.mk None (PString text) (Some "string")] path.

(** The characters of a decimal numeral: the digits and the minus sign. *)
Definition numeral_char (c : ascii) : bool :=
  match digit_of c with
  | Some _ => true
  | None => Ascii.eqb c "-"
  end.

(** The rows that are not keyed [__proto__]. *)
Definition without_proto (rows : list NodeRow.t) : list NodeRow.t :=
  filter (fun row => negb (String.eqb (key_of row) "__proto__")) rows.

(** An object as [{}] creates it as far as [__proto__] goes: the prototype
    is still there, and no own property has that name. *)
Definition pristine (obj : JsObject) : Prop :=
  proto_null obj = false /\ has_own "__proto__" (own obj) = false.

(* ================================================================== *)
(** * The patcher of jsonc-parser *)
(* ================================================================== *)

(** [modify] and [applyEdits] as the library computes them ([setProperty],
    [withFormatting], [format] and [applyEdits] of jsonc-parser 3), on the
    documents that are JSON texts without comments.  Offsets count the
    characters of the text.  On any other text [modify] answers with the
    error [Unsupported], which the library does not have. *)
Module JsoncParser.

Inductive SyntaxKind : Type :=
| OpenBraceToken | CloseBraceToken | OpenBracketToken | CloseBracketToken
| CommaToken | ColonToken | NullKeyword | TrueKeyword | FalseKeyword
| StringLiteral | NumericLiteral
| LineCommentTrivia | BlockCommentTrivia | LineBreakTrivia | Trivia
| Unknown | EOF.

Definition SyntaxKind_eqb (a b : SyntaxKind) : bool :=
  match a, b with
  | OpenBraceToken, OpenBraceToken | CloseBraceToken, CloseBraceToken
  | OpenBracketToken, OpenBracketToken | CloseBracketToken, CloseBracketToken
  | CommaToken, CommaToken | ColonToken, ColonToken
  | NullKeyword, NullKeyword | TrueKeyword, TrueKeyword
  | FalseKeyword, FalseKeyword | StringLiteral, StringLiteral
  | NumericLiteral, NumericLiteral | LineCommentTrivia, LineCommentTrivia
  | BlockCommentTrivia, BlockCommentTrivia | LineBreakTrivia, LineBreakTrivia
  | Trivia, Trivia | Unknown, Unknown | EOF, EOF => true
  | _, _ => false
  end.

(** A token: its kind, where it starts, how long it is, the value of a
    string literal, and whether the scanner reported an error on it. *)
Record Token : Type := {
  kind : SyntaxKind;
  tokenOffset : nat;
  tokenLength : nat;
  tokenValue : string;
  tokenError : bool
}.

Definition code (c : ascii) : N := N_of_ascii c.

Definition isWhiteSpace (c : ascii) : bool :=
  (code c =? 32)%N || (code c =? 9)%N.

Definition isLineBreak (c : ascii) : bool :=
  (code c =? 10)%N || (code c =? 13)%N.

Definition isDigit (c : ascii) : bool :=
  (48 <=? code c)%N && (code c <=? 57)%N.

Definition isUnknownContentCharacter (c : ascii) : bool :=
  negb (isWhiteSpace c || isLineBreak c
        || (code c =? 125)%N || (code c =? 93)%N || (code c =? 123)%N
        || (code c =? 91)%N || (code c =? 34)%N || (code c =? 58)%N
        || (code c =? 44)%N || (code c =? 47)%N).

Fixpoint drop (n : nat) (s : string) : string :=
  match n, s with
  | O, _ => s
  | S m, String _ rest => drop m rest
  | S _, EmptyString => EmptyString
  end.

Fixpoint take (n : nat) (s : string) : string :=
  match n, s with
  | S m, String c rest => String c (take m rest)
  | _, _ => EmptyString
  end.

(** The number of leading characters that satisfy [p]. *)
Fixpoint run_length (p : ascii -> bool) (s : string) : nat :=
  match s with
  | String c rest => if p c then S (run_length p rest) else O
  | EmptyString => O
  end.

Definition starts_with (p : ascii -> bool) (s : string) : bool :=
  match s with
  | String c _ => p c
  | EmptyString => false
  end.

Definition hex_value (c : ascii) : option N :=
  let n := code c in
  if (48 <=? n)%N && (n <=? 57)%N then Some (n - 48)%N
  else if (65 <=? n)%N && (n <=? 70)%N then Some (n - 55)%N
  else if (97 <=? n)%N && (n <=? 102)%N then Some (n - 87)%N
  else None.

(** [scanHexDigits(4, true)]: the value of four hexadecimal digits, and the
    number of characters read. *)
Fixpoint scanHexDigits (count : nat) (acc : N) (s : string) : option N * nat :=
  match count with
  | O => (Some acc, O)
  | S m =>
      match s with
      | String c rest =>
          match hex_value c with
          | Some d =>
              let (v, n) := scanHexDigits m (acc * 16 + d)%N rest in (v, S n)
          | None => (None, O)
          end
      | EmptyString => (None, O)
      end
  end.

(** [String.fromCharCode], the character written as the bytes of the
    text. *)
Definition fromCharCode (n : N) : string :=
  if (n <? 128)%N then String (ascii_of_N n) EmptyString
  else if (n <? 2048)%N then
    String (ascii_of_N (192 + n / 64))
      (String (ascii_of_N (128 + n mod 64)) EmptyString)
  else
    String (ascii_of_N (224 + n / 4096))
      (String (ascii_of_N (128 + (n / 64) mod 64))
         (String (ascii_of_N (128 + n mod 64)) EmptyString)).

(** [scanString], after the opening quote: the value, the number of
    characters read, and whether there was a scan error. *)
Fixpoint scanString (fuel : nat) (s : string) : string * nat * bool :=
  match fuel with
  | O => (EmptyString, O, true)
  | S f =>
      match s with
      | EmptyString => (EmptyString, O, true)
      | String c rest =>
          if (code c =? 34)%N then (EmptyString, 1, false)
          else if (code c =? 92)%N then
            match rest with
            | EmptyString => (EmptyString, 1, true)
            | String c2 rest2 =>
                let escaped :=
                  if (code c2 =? 34)%N then Some DQUOTE
                  else if (code c2 =? 92)%N then Some BACKSLASH
                  else if (code c2 =? 47)%N then Some "/"
                  else if (code c2 =? 98)%N then Some (String (ascii_of_nat 8) EmptyString)
                  else if (code c2 =? 102)%N then Some (String (ascii_of_nat 12) EmptyString)
                  else if (code c2 =? 110)%N then Some (String (ascii_of_nat 10) EmptyString)
                  else if (code c2 =? 114)%N then Some (String (ascii_of_nat 13) EmptyString)
                  else if (code c2 =? 116)%N then Some (String (ascii_of_nat 9) EmptyString)
                  else None in
                if (code c2 =? 117)%N then
                  let (v, n) := scanHexDigits 4 0 rest2 in
                  let '(value, read, err) := scanString f (drop n rest2) in
                  match v with
                  | Some ch => (fromCharCode ch ++ value, 2 + n + read, err)
                  | None => (value, 2 + n + read, true)
                  end
                else
                  let '(value, read, err) := scanString f rest2 in
                  match escaped with
                  | Some text => (text ++ value, 2 + read, err)
                  | None => (value, 2 + read, true)
                  end
            end
          else if isLineBreak c then (EmptyString, O, true)
          else
            let '(value, read, err) := scanString f rest in
            (String c value, S read, err || (code c <? 32)%N)
      end
  end.

(** [scanNumber], from the first digit: the number of characters read, and
    whether the numeral stopped short. *)
Definition scanNumber (s : string) : nat * bool :=
  let int_part :=
    match s with
    | String c rest => if (code c =? 48)%N then 1 else S (run_length isDigit rest)
    | EmptyString => O
    end in
  let after_int := drop int_part s in
  let '(frac_part, frac_err) :=
    match after_int with
    | String c rest =>
        if (code c =? 46)%N then
          if starts_with isDigit rest then (S (run_length isDigit rest), false)
          else (1, true)
        else (O, false)
    | EmptyString => (O, false)
    end in
  if frac_err then (int_part + frac_part, true)
  else
    let after_frac := drop frac_part after_int in
    match after_frac with
    | String c rest =>
        if (code c =? 69)%N || (code c =? 101)%N then
          let sign :=
            match rest with
            | String c2 _ => if (code c2 =? 43)%N || (code c2 =? 45)%N then 1 else O
            | EmptyString => O
            end in
          let digits := drop sign rest in
          if starts_with isDigit digits
          then (int_part + frac_part + 1 + sign + run_length isDigit digits, false)
          else (int_part + frac_part + 1 + sign, true)
        else (int_part + frac_part, false)
    | EmptyString => (int_part + frac_part, false)
    end.

(** The end of a block comment: the characters up to and with its closing
    mark, and whether the mark is missing. *)
Fixpoint scanBlockComment (s : string) : nat * bool :=
  match s with
  | EmptyString => (O, true)
  | String c rest =>
      match rest with
      | String c2 _ =>
          if (code c =? 42)%N && (code c2 =? 47)%N then (2, false)
          else let (n, err) := scanBlockComment rest in (S n, err)
      | EmptyString => (1, true)
      end
  end.

(** One call of [scan()] on a text that is not empty: kind, length, value
    and error of the token at its start. *)
Definition scanToken (s : string) : SyntaxKind * nat * string * bool :=
  match s with
  | EmptyString => (EOF, O, EmptyString, false)
  | String c rest =>
      if isWhiteSpace c then (Trivia, S (run_length isWhiteSpace rest), EmptyString, false)
      else if isLineBreak c then
        (LineBreakTrivia,
         (if (code c =? 13)%N && starts_with (fun x => (code x =? 10)%N) rest
          then 2 else 1), EmptyString, false)
      else if (code c =? 123)%N then (OpenBraceToken, 1, EmptyString, false)
      else if (code c =? 125)%N then (CloseBraceToken, 1, EmptyString, false)
      else if (code c =? 91)%N then (OpenBracketToken, 1, EmptyString, false)
      else if (code c =? 93)%N then (CloseBracketToken, 1, EmptyString, false)
      else if (code c =? 58)%N then (ColonToken, 1, EmptyString, false)
      else if (code c =? 44)%N then (CommaToken, 1, EmptyString, false)
      else if (code c =? 34)%N then
        let '(value, read, err) := scanString (S (String.length rest)) rest in
        (StringLiteral, S read, value, err)
      else if (code c =? 47)%N then
        match rest with
        | String c2 rest2 =>
            if (code c2 =? 47)%N then
              (LineCommentTrivia,
               2 + run_length (fun x => negb (isLineBreak x)) rest2,
               EmptyString, false)
            else if (code c2 =? 42)%N then
              let (n, err) := scanBlockComment rest2 in
              (BlockCommentTrivia, 2 + n, EmptyString, err)
            else (Unknown, 1, EmptyString, false)
        | EmptyString => (Unknown, 1, EmptyString, false)
        end
      else if (code c =? 45)%N then
        if starts_with isDigit rest then
          let (n, err) := scanNumber rest in
          (NumericLiteral, S n, EmptyString, err)
        else (Unknown, 1, EmptyString, false)
      else if isDigit c then
        let (n, err) := scanNumber s in (NumericLiteral, n, EmptyString, err)
      else if isUnknownContentCharacter c then
        let n := run_length isUnknownContentCharacter s in
        let word := take n s in
        ((if String.eqb word "true" then TrueKeyword
          else if String.eqb word "false" then FalseKeyword
          else if String.eqb word "null" then NullKeyword
          else Unknown), n, EmptyString, false)
      else (Unknown, 1, EmptyString, false)
  end.

(** All the tokens of a text, trivia included, without the final [EOF]. *)
Fixpoint tokens (fuel : nat) (start : nat) (s : string) : list Token :=
  match fuel with
  | O => []
  | S f =>
      match s with
      | EmptyString => []
      | _ =>
          let '(k, n, value, err) := scanToken s in
          {| kind := k; tokenOffset := start; tokenLength := n;
             tokenValue := value; tokenError := err |}
            :: tokens f (start + n) (drop n s)
      end
  end.

Definition isTrivia (k : SyntaxKind) : bool :=
  match k with
  | Trivia | LineBreakTrivia => true
  | _ => false
  end.

Definition isComment (k : SyntaxKind) : bool :=
  match k with
  | LineCommentTrivia | BlockCommentTrivia => true
  | _ => false
  end.

(** The tokens of a text that are not white space or line breaks, from the
    offset [start]. *)
Definition significant (start : nat) (s : string) : list Token :=
  filter (fun t => negb (isTrivia (kind t))) (tokens (String.length s) start s).

Definition tokenEnd (t : Token) : nat := tokenOffset t + tokenLength t.

(** ** The tree of a document *)

(** A node of [parseTree]: its type, its offset and length in the text, the
    value of a string, and its children. *)
Inductive Node : Type :=
| mkNode (type : string) (offset length : nat) (value : string)
         (children : list Node).

Definition nodeType (n : Node) : string := let 'mkNode t _ _ _ _ := n in t.
Definition nodeOffset (n : Node) : nat := let 'mkNode _ o _ _ _ := n in o.
Definition nodeLength (n : Node) : nat := let 'mkNode _ _ l _ _ := n in l.
Definition nodeValue (n : Node) : string := let 'mkNode _ _ _ v _ := n in v.
Definition nodeChildren (n : Node) : list Node := let 'mkNode _ _ _ _ c := n in c.

Definition leaf (type : string) (t : Token) : Node :=
  mkNode type (tokenOffset t) (tokenLength t) (tokenValue t) [].

(** The value that starts the tokens, and the tokens after it; [None] when
    the tokens do not start with a JSON value. *)
Fixpoint parseValue (fuel : nat) (ts : list Token) : option (Node * list Token) :=
  match fuel with
  | O => None
  | S f =>
      match ts with
      | [] => None
      | t :: rest =>
          if tokenError t then None
          else match kind t with
               | StringLiteral => Some (leaf "string" t, rest)
               | NumericLiteral => Some (leaf "number" t, rest)
               | TrueKeyword | FalseKeyword => Some (leaf "boolean" t, rest)
               | NullKeyword => Some (leaf "null" t, rest)
               | OpenBraceToken =>
                   match rest with
                   | t2 :: rest2 =>
                       if SyntaxKind_eqb (kind t2) CloseBraceToken
                       then Some (mkNode "object" (tokenOffset t)
                                    (tokenEnd t2 - tokenOffset t) EmptyString [],
                                  rest2)
                       else parseProperties f (tokenOffset t) [] rest
                   | [] => None
                   end
               | OpenBracketToken =>
                   match rest with
                   | t2 :: rest2 =>
                       if SyntaxKind_eqb (kind t2) CloseBracketToken
                       then Some (mkNode "array" (tokenOffset t)
                                    (tokenEnd t2 - tokenOffset t) EmptyString [],
                                  rest2)
                       else parseItems f (tokenOffset t) [] rest
                   | [] => None
                   end
               | _ => None
               end
      end
  end
with parseProperties (fuel : nat) (start : nat) (done : list Node)
       (ts : list Token) : option (Node * list Token) :=
  match fuel with
  | O => None
  | S f =>
      match ts with
      | key :: colon :: rest =>
          if tokenError key || negb (SyntaxKind_eqb (kind key) StringLiteral)
             || negb (SyntaxKind_eqb (kind colon) ColonToken)
          then None
          else
            match parseValue f rest with
            | Some (v, after :: rest') =>
                let property :=
                  mkNode "property" (tokenOffset key)
                         (nodeOffset v + nodeLength v - tokenOffset key)
                         EmptyString [leaf "string" key; v] in
                if SyntaxKind_eqb (kind after) CommaToken
                then parseProperties f start (done ++ [property]) rest'
                else if SyntaxKind_eqb (kind after) CloseBraceToken
                then Some (mkNode "object" start (tokenEnd after - start)
                             EmptyString (done ++ [property]), rest')
                else None
            | _ => None
            end
      | _ => None
      end
  end
with parseItems (fuel : nat) (start : nat) (done : list Node)
       (ts : list Token) : option (Node * list Token) :=
  match fuel with
  | O => None
  | S f =>
      match parseValue f ts with
      | Some (v, after :: rest') =>
          if SyntaxKind_eqb (kind after) CommaToken
          then parseItems f start (done ++ [v]) rest'
          else if SyntaxKind_eqb (kind after) CloseBracketToken
          then Some (mkNode "array" start (tokenEnd after - start)
                       EmptyString (done ++ [v]), rest')
          else None
      | _ => None
      end
  end.

(** [parseTree]: [Some None] for a text without any value, [None] for a
    text that lies outside the documents modelled. *)
Definition parseTree (text : string) : option (option Node) :=
  let ts := significant 0 text in
  match ts with
  | [] => Some None
  | _ =>
      match parseValue (S (List.length ts)) ts with
      | Some (root, []) => Some (Some root)
      | _ => None
      end
  end.

(** [findNodeAtLocation]. *)
Fixpoint findProperty (name : string) (properties : list Node) : option Node :=
  match properties with
  | [] => None
  | p :: rest =>
      match nodeChildren p with
      | [k; v] => if String.eqb (nodeValue k) name then Some v
                  else findProperty name rest
      | _ => findProperty name rest
      end
  end.

Fixpoint findNodeAtLocation (node : Node) (path : JSONPath) : option Node :=
  match path with
  | [] => Some node
  | SegKey name :: rest =>
      if String.eqb (nodeType node) "object" then
        match findProperty name (nodeChildren node) with
        | Some v => findNodeAtLocation v rest
        | None => None
        end
      else None
  | SegIndex index :: rest =>
      if String.eqb (nodeType node) "array" && (0 <=? index)%Z then
        match nth_error (nodeChildren node) (Z.to_nat index) with
        | Some v => findNodeAtLocation v rest
        | None => None
        end
      else None
  end.

Definition findAt (root : option Node) (path : JSONPath) : option Node :=
  match root with
  | Some node => findNodeAtLocation node path
  | None => None
  end.

(** Whether a path addresses a location of a document. *)
Definition addresses (text : string) (path : JSONPath) : bool :=
  match parseTree text with
  | Some root => match findAt root path with
                 | Some _ => true
                 | None => false
                 end
  | None => false
  end.

(** ** Edits *)

(** [applyEdit]. *)
Definition applyEdit (text : string) (e : Edit.t) : string :=
  take (Edit.offset e) text ++ Edit.content e
    ++ drop (Edit.offset e + Edit.length e) text.

(** [isEOL(text, offset)]. *)
Definition isEOL (text : string) (offset : nat) : bool :=
  match String.get offset text with
  | Some c => isLineBreak c
  | None => true
  end.

(** The start of the line of an offset: [while (begin > 0 &&
    !isEOL(text, begin - 1)) begin--]. *)
Fixpoint lineStart (text : string) (offset : nat) : nat :=
  match offset with
  | O => O
  | S before => if isEOL text before then offset else lineStart text before
  end.

(** The end of the line of an offset: [while (end < text.length &&
    !isEOL(text, end)) end++]. *)
Fixpoint lineEndFrom (fuel : nat) (text : string) (offset : nat) : nat :=
  match fuel with
  | O => offset
  | S f =>
      if Nat.ltb offset (String.length text) && negb (isEOL text offset)
      then lineEndFrom f text (S offset) else offset
  end.

Definition lineEnd (text : string) (offset : nat) : nat :=
  lineEndFrom (String.length text) text offset.

(** [getEOL]: the first line break of the text, or a line feed. *)
Fixpoint getEOL (text : string) : string :=
  match text with
  | EmptyString => LF
  | String c rest =>
      if (code c =? 13)%N then
        if starts_with (fun x => (code x =? 10)%N) rest
        then String c LF else String c EmptyString
      else if (code c =? 10)%N then LF
      else getEOL rest
  end.

(** [computeIndentLevel]. *)
Fixpoint leadingBlanks (tabSize : nat) (content : string) : nat :=
  match content with
  | String c rest =>
      if (code c =? 32)%N then S (leadingBlanks tabSize rest)
      else if (code c =? 9)%N then tabSize + leadingBlanks tabSize rest
      else O
  | EmptyString => O
  end.

Definition effectiveTabSize (options : FormattingOptions) : nat :=
  match tabSize options with
  | O => 4
  | n => n
  end.

Definition computeIndentLevel (content : string) (options : FormattingOptions) : nat :=
  Nat.div (leadingBlanks (effectiveTabSize options) content)
          (effectiveTabSize options).

Fixpoint repeat_string (s : string) (count : nat) : string :=
  match count with
  | O => EmptyString
  | S n => s ++ repeat_string s n
  end.

Definition indentValue (options : FormattingOptions) : string :=
  if insertSpaces options then spaces (effectiveTabSize options)
  else String (ascii_of_nat 9) EmptyString.

(** What [format] puts between two tokens. *)
Inductive Separation : Type :=
| Nothing
| Blank
| NewLineAndIndent.

(** One turn of the loop of [format] (no comment, [keepLines] off): the new
    indentation level, what goes between the two tokens, and whether the
    pair is an error. *)
Definition separation (first second : SyntaxKind) (indentLevel : Z)
  : Z * Separation * bool :=
  let result :=
    match second with
    | CloseBraceToken =>
        if SyntaxKind_eqb first OpenBraceToken then (indentLevel, Nothing, false)
        else ((indentLevel - 1)%Z, NewLineAndIndent, false)
    | CloseBracketToken =>
        if SyntaxKind_eqb first OpenBracketToken then (indentLevel, Nothing, false)
        else ((indentLevel - 1)%Z, NewLineAndIndent, false)
    | _ =>
        match first with
        | OpenBracketToken | OpenBraceToken =>
            ((indentLevel + 1)%Z, NewLineAndIndent, false)
        | CommaToken => (indentLevel, NewLineAndIndent, false)
        | ColonToken => (indentLevel, Blank, false)
        | StringLiteral => (indentLevel, Nothing, false)
        | NullKeyword | TrueKeyword | FalseKeyword | NumericLiteral
        | CloseBraceToken | CloseBracketToken =>
            (indentLevel, Nothing,
             negb (SyntaxKind_eqb second CommaToken || SyntaxKind_eqb second EOF))
        | Unknown => (indentLevel, Nothing, true)
        | _ => (indentLevel, Nothing, false)
        end
    end in
  match second with
  | EOF => let '(level, _, err) := result in (level, Nothing, err)
  | _ => result
  end.

Section Format.
Variable documentText : string.
Variable rangeStart rangeEnd : nat.
Variable options : FormattingOptions.
Variable initialIndentLevel : nat.
Variable formatTextEnd : nat.

(** [addEdit]. *)
Definition addEdit (hasError : bool) (text : string) (startOffset endOffset : nat)
  : list Edit.t :=
  if negb hasError
     && (Nat.ltb startOffset rangeEnd && Nat.ltb rangeStart endOffset)
     && negb (String.eqb (take (endOffset - startOffset)
                               (drop startOffset documentText)) text)
  then [Edit.mk startOffset (endOffset - startOffset) text]
  else [].

Definition replaceContent (sep : Separation) (indentLevel : Z) : string :=
  match sep with
  | Nothing => EmptyString
  | Blank => " "
  | NewLineAndIndent =>
      getEOL documentText
        ++ repeat_string (indentValue options)
             (Z.to_nat (Z.of_nat initialIndentLevel + indentLevel))
  end.

(** The loop of [format], from the token [first]. *)
Fixpoint formatFrom (first : Token) (rest : list Token) (indentLevel : Z)
  : list Edit.t :=
  match rest with
  | [] =>
      let '(level, sep, err) := separation (kind first) EOF indentLevel in
      addEdit err (replaceContent sep level) (tokenEnd first) formatTextEnd
  | second :: rest' =>
      let '(level, sep, err) := separation (kind first) (kind second) indentLevel in
      let hasError :=
        tokenError second || SyntaxKind_eqb (kind second) Unknown || err in
      (addEdit hasError (replaceContent sep level) (tokenEnd first)
               (tokenOffset second)
         ++ formatFrom second rest' level)%list
  end.
End Format.

(** [format(documentText, range, options)], for a text without comments. *)
Definition format (documentText : string) (rangeOffset rangeLength : nat)
           (options : FormattingOptions) : list Edit.t :=
  let rangeStart := rangeOffset in
  let rangeEnd := rangeOffset + rangeLength in
  let formatTextStart := lineStart documentText rangeStart in
  let endOffset := lineEnd documentText rangeEnd in
  let formatText := take (endOffset - formatTextStart)
                         (drop formatTextStart documentText) in
  let initialIndentLevel := computeIndentLevel formatText options in
  match significant formatTextStart formatText with
  | [] => []
  | first :: rest =>
      (addEdit documentText rangeStart rangeEnd
               (tokenError first || SyntaxKind_eqb (kind first) Unknown)
               (repeat_string (indentValue options) initialIndentLevel)
               formatTextStart (tokenOffset first)
         ++ formatFrom documentText rangeStart rangeEnd options
              initialIndentLevel endOffset first rest 0)%list
  end.

(** The loop of [withFormatting] that applies the edits of [format] from
    the last one and keeps track of the part of the text they touch. *)
Fixpoint applyFormatting (reversed : list Edit.t) (newText : string)
         (first last : nat) : string * nat * nat :=
  match reversed with
  | [] => (newText, first, last)
  | e :: rest =>
      applyFormatting rest (applyEdit newText e)
        (Nat.min first (Edit.offset e))
        (Nat.max last (Edit.offset e + Edit.length e)
           + String.length (Edit.content e) - Edit.length e)
  end.

(** [withFormatting]. *)
Definition withFormatting (text : string) (edit : Edit.t)
           (options : ModificationOptions) : list Edit.t :=
  let newText := applyEdit text edit in
  let first := Edit.offset edit in
  let last := Edit.offset edit + String.length (Edit.content edit) in
  let inserts := Nat.eqb (Edit.length edit) 0
                 || Nat.eqb (String.length (Edit.content edit)) 0 in
  let first := if inserts then lineStart newText first else first in
  let last := if inserts then lineEnd newText last else last in
  let edits := format newText first (last - first) (formattingOptions options) in
  let '(formatted, first', last') :=
    applyFormatting (rev edits) newText first last in
  let editLength :=
    String.length text - (String.length formatted - last') - first' in
  [Edit.mk first' editLength (take (last' - first') (drop first' formatted))].

(** ** [modify] *)

Definition wrap (segment : Segment) (value : Json) : Json :=
  match segment with
  | SegKey name => JObject [(name, value)]
  | SegIndex _ => JArray [value]
  end.

(** The loop that pops the segments of the path until a parent exists: the
    last segment popped, the parent found, and the value to write. *)
Fixpoint findParent (root : option Node) (reversed : JSONPath) (value : Json)
  : option (Segment * Node) * Json :=
  match reversed with
  | [] => (None, value)
  | lastSegment :: before =>
      match findAt root (rev before) with
      | Some parent => (Some (lastSegment, parent), value)
      | None => findParent root before (wrap lastSegment value)
      end
  end.

Definition lastChildEnd (children : list Node) : option nat :=
  match rev children with
  | previous :: _ => Some (nodeOffset previous + nodeLength previous)
  | [] => None
  end.

(** The edit [setProperty] computes, before it is formatted. *)
Definition propertyEdit (root : option Node) (path : JSONPath) (value : Json)
  : Completion Edit.t :=
  match findParent root (rev path) value with
  | (None, value') =>
      inr (Edit.mk (match root with Some r => nodeOffset r | None => 0 end)
                   (match root with Some r => nodeLength r | None => 0 end)
                   (Scalar.stringify value'))
  | (Some (SegKey name, parent), value') =>
      if String.eqb (nodeType parent) "object" then
        match findProperty name (nodeChildren parent) with
        | Some existing =>
            inr (Edit.mk (nodeOffset existing) (nodeLength existing)
                         (Scalar.stringify value'))
        | None =>
            let newProperty :=
              QuoteJSONString name ++ ": " ++ Scalar.stringify value' in
            match lastChildEnd (nodeChildren parent) with
            | Some previousEnd => inr (Edit.mk previousEnd 0 ("," ++ newProperty))
            | None => inr (Edit.mk (nodeOffset parent + 1) 0 newProperty)
            end
        end
      else
        inl {| name := "Error";
               message := "Can not add index to parent of type "
                            ++ nodeType parent |}
  | (Some (SegIndex index, parent), value') =>
      if String.eqb (nodeType parent) "array" then
        let children := nodeChildren parent in
        let newProperty := Scalar.stringify value' in
        if (index =? -1)%Z then
          match lastChildEnd children with
          | Some previousEnd => inr (Edit.mk previousEnd 0 ("," ++ newProperty))
          | None => inr (Edit.mk (nodeOffset parent + 1) 0 newProperty)
          end
        else if (index <? Z.of_nat (List.length children))%Z then
          match (if (index <? 0)%Z then None
                 else nth_error children (Z.to_nat index)) with
          | Some toModify =>
              inr (Edit.mk (nodeOffset toModify) (nodeLength toModify) newProperty)
          | None =>
              inl {| name := "TypeError";
                     message := "Cannot read properties of undefined (reading 'offset')" |}
          end
        else if Nat.eqb (List.length children) 0 then
          inr (Edit.mk (nodeOffset parent + 1) 0 newProperty)
        else if (index =? 0)%Z then
          inr (Edit.mk (nodeOffset parent + 1) 0 (newProperty ++ ","))
        else
          match lastChildEnd children with
          | Some previousEnd => inr (Edit.mk previousEnd 0 ("," ++ newProperty))
          | None => inr (Edit.mk (nodeOffset parent + 1) 0 newProperty)
          end
      else
        inl {| name := "Error";
               message := "Can not add property to parent of type "
                            ++ nodeType parent |}
  end.

Definition Unsupported : JsError :=
  {| name := "Unsupported"; message := "The text is outside the documents modelled" |}.

(** [modify(text, path, value, options)]. *)
Definition modify (text : string) (path : JSONPath) (value : Json)
           (options : ModificationOptions) : Completion (list Edit.t) :=
  match parseTree text with
  | None => inl Unsupported
  | Some root =>
      match propertyEdit root path value with
      | inl err => inl err
      | inr edit => inr (withFormatting text edit options)
      end
  end.

(** ** [applyEdits] *)

Definition editBefore (a b : Edit.t) : bool :=
  Nat.ltb (Edit.offset a) (Edit.offset b)
  || (Nat.eqb (Edit.offset a) (Edit.offset b)
      && Nat.leb (Edit.length a) (Edit.length b)).

Fixpoint insertEdit (e : Edit.t) (sorted : list Edit.t) : list Edit.t :=
  match sorted with
  | [] => [e]
  | x :: rest => if editBefore e x then e :: sorted else x :: insertEdit e rest
  end.

Definition sortEdits (edits : list Edit.t) : list Edit.t :=
  fold_right insertEdit [] edits.

Fixpoint applyFromLast (reversed : list Edit.t) (text : string)
         (lastModifiedOffset : nat) : Completion string :=
  match reversed with
  | [] => inr text
  | e :: rest =>
      if Nat.leb (Edit.offset e + Edit.length e) lastModifiedOffset
      then applyFromLast rest (applyEdit text e) (Edit.offset e)
      else inl {| name := "Error"; message := "Overlapping edit" |}
  end.

Definition applyEdits (text : string) (edits : list Edit.t) : Completion string :=
  applyFromLast (rev (sortEdits edits)) text (String.length text).

(** The imports of the component, with [JSON.parse] on scalar literals. *)
Definition imports : Imports :=
  Build_Imports Scalar.parse modify applyEdits.

End JsoncParser.

(* ================================================================== *)
(** * Safe integers, and sessions on small documents *)
(* ================================================================== *)

(** [Number.isSafeInteger]: the integers every one of which is a number of
    its own, and which [Number::toString] prints in decimal notation. *)
Definition safe_integer (n : Z) : bool :=
  (-9007199254740991 <=? n)%Z && (n <=? 9007199254740991)%Z.

Definition safe_segment (seg : Segment) : bool :=
  match seg with
  | SegIndex n => safe_integer n
  | SegKey _ => true
  end.

(** The options [handleSave] passes to [modify]. *)
Definition saveOptions : ModificationOptions :=
  {| formattingOptions := {| insertSpaces := true; tabSize := 2 |} |}.

(** A node that carries the number 1 at the given path. *)
Definition node_at (path : JSONPath) : NodeData.t :=
  NodeData.mk [NodeRow.mk None (PNumber 1) (Some "number")] (Some path).

(** The dialog open and Editing on a node, with a draft typed in. *)
Definition editing_session (nodeData : NodeData.t) (document draft : string)
  : Session :=
  {| selectedNode := Some nodeData; json := document; fileContents := document;
     fileHasChanges := false; opened := true; editing := true;
     value := draft; error := None |}.

(** The documents [{"x":1}] and [{"user": {"name": "x"}}]. *)
Definition document_x : string := "{" ++ DQUOTE ++ "x" ++ DQUOTE ++ ":1}".

Definition document_user : string :=
  "{" ++ DQUOTE ++ "user" ++ DQUOTE ++ ": {" ++ DQUOTE ++ "name" ++ DQUOTE
      ++ ": " ++ DQUOTE ++ "x" ++ DQUOTE ++ "}}".
(* ================================================================== *)
(** * Strings and joins *)
(* ================================================================== *)

Lemma append_assoc (a b c : string) : (a ++ b) ++ c = a ++ (b ++ c).
Proof.
  induction a as [|ch a IH]; simpl; [reflexivity|].
  now rewrite IH.
Qed.

Lemma append_empty_r (a : string) : a ++ EmptyString = a.
Proof.
  induction a as [|ch a IH]; simpl; [reflexivity|].
  now rewrite IH.
Qed.

(** Joining with a separator that ends in [pre], after a first [pre], is
    joining the prefixed parts. *)
Lemma join_prefixed (sep pre : string) (parts : list string) :
  parts <> [] ->
  pre ++ join (sep ++ pre) parts = join sep (map (fun p => pre ++ p) parts).
Proof.
  induction parts as [|p rest IH]; [congruence|].
  intros _. destruct rest as [|q rest].
  - reflexivity.
  - change (join (sep ++ pre) (p :: q :: rest))
      with (p ++ (sep ++ pre) ++ join (sep ++ pre) (q :: rest)).
    change (join sep (map (fun p0 => pre ++ p0) (p :: q :: rest)))
      with ((pre ++ p) ++ sep
              ++ join sep (map (fun p0 => pre ++ p0) (q :: rest))).
    rewrite <- IH by congruence.
    now rewrite !append_assoc.
Qed.

(** Wrapping a join on [close ++ open] in [open] and [close] is bracketing
    each part. *)
Lemma join_bracketed (open close : string) (parts : list string) :
  parts <> [] ->
  open ++ join (close ++ open) parts ++ close
  = String.concat EmptyString (map (fun p => open ++ p ++ close) parts).
Proof.
  induction parts as [|p rest IH]; [congruence|].
  intros _. destruct rest as [|q rest].
  - simpl. reflexivity.
  - change (join (close ++ open) (p :: q :: rest))
      with (p ++ (close ++ open) ++ join (close ++ open) (q :: rest)).
    change (String.concat EmptyString (map (fun p0 => open ++ p0 ++ close) (p :: q :: rest)))
      with ((open ++ p ++ close) ++ EmptyString
              ++ String.concat EmptyString (map (fun p0 => open ++ p0 ++ close) (q :: rest))).
    rewrite <- IH by congruence.
    simpl. now rewrite !append_assoc.
Qed.

(** The decimal numeral of a number reads back as that number. *)
Lemma Number_toString_decimal (n : Z) :
  option_map Z.of_int (NilZero.int_of_string (Number_toString n)) = Some n.
Proof.
  unfold Number_toString.
  rewrite NilZero.isi.
  - simpl. now rewrite DecimalZ.of_to.
  - destruct n as [|p|p]; simpl; try discriminate.
    intros [= H]. now apply DecimalPos.Unsigned.to_uint_nonnil in H.
  - destruct n as [|p|p]; simpl; try discriminate.
    intros [= H]. now apply DecimalPos.Unsigned.to_uint_nonnil in H.
Qed.

(* ================================================================== *)
(** * [jsonPathToString] *)
(* ================================================================== *)

Lemma spec_segment_brackets (seg : Segment) :
  spec_segment seg = "[" ++ segment_text seg ++ "]".
Proof.
  destruct seg as [key|n]; simpl; [|reflexivity].
  now rewrite !append_assoc.
Qed.

(** C5: [jsonPathToString] gives ["$"] for an undefined or empty path, and
    otherwise ["$"] followed by one bracket per segment: [[N]], the decimal
    numeral of [N], for an integer segment (a safe integer, as an array
    index is), [["key"]] for a string segment, the key copied between the
    quotes without any escaping; so [["a", 0, "b"]] is rendered as
    [$["a"][0]["b"]]. *)
Theorem jsonPathToString_spec :
  jsonPathToString None = "$"
  /\ jsonPathToString (Some []) = "$"
  /\ (forall segs : JSONPath,
        forallb safe_segment segs = true ->
        jsonPathToString (Some segs)
        = "$" ++ String.concat EmptyString (map spec_segment segs))
  /\ (forall n : Z,
        safe_integer n = true ->
        spec_segment (SegIndex n) = "[" ++ Number_toString n ++ "]"
        /\ option_map Z.of_int (NilZero.int_of_string (Number_toString n)) = Some n)
  /\ (forall key : string,
        spec_segment (SegKey key) = "[" ++ DQUOTE ++ key ++ DQUOTE ++ "]")
  /\ jsonPathToString (Some [SegKey "a"; SegIndex 0; SegKey "b"])
     = "$[" ++ DQUOTE ++ "a" ++ DQUOTE ++ "][0][" ++ DQUOTE ++ "b" ++ DQUOTE ++ "]"
  /\ jsonPathToString (Some [SegKey ("a" ++ DQUOTE ++ "b")])
     = "$[" ++ DQUOTE ++ "a" ++ DQUOTE ++ "b" ++ DQUOTE ++ "]".
Proof.
  split; [reflexivity|]. split; [reflexivity|]. split.
  { intros [|seg rest] _; [reflexivity|].
    unfold jsonPathToString.
    change ("$[" ++ join "][" (map segment_text (seg :: rest)) ++ "]")
      with ("$" ++ ("[" ++ join ("]" ++ "[") (map segment_text (seg :: rest)) ++ "]")).
    rewrite join_bracketed by discriminate.
    rewrite map_map. f_equal. f_equal.
    apply map_ext. intros s. now rewrite spec_segment_brackets. }
  split.
  { intros n _. split; [reflexivity | apply Number_toString_decimal]. }
  split; [reflexivity|]. split; reflexivity.
Qed.

Lemma jsonPathToString_spec_witness :
  forallb safe_segment [SegKey "items"; SegIndex 12; SegKey "id"] = true
  /\ jsonPathToString (Some [SegKey "items"; SegIndex 12; SegKey "id"])
     = "$[" ++ DQUOTE ++ "items" ++ DQUOTE ++ "][12][" ++ DQUOTE ++ "id"
           ++ DQUOTE ++ "]".
Proof.
  split; [reflexivity|].
  destruct jsonPathToString_spec as (_ & _ & Hsegs & _).
  exact (Hsegs [SegKey "items"; SegIndex 12; SegKey "id"] eq_refl).
Defined.

(* ================================================================== *)
(** * [normalizeNodeData] *)
(* ================================================================== *)

Lemma add_row_kept (obj : JsObject) (row : NodeRow.t) :
  scalar_row row && has_key row = true -> add_row obj row = assign obj row.
Proof.
  unfold add_row, assign, scalar_row, has_key, key_of.
  destruct (negb (is_container (NodeRow.type row))); simpl; [|discriminate].
  destruct (NodeRow.key row) as [k|]; simpl; [|discriminate].
  now intros ->.
Qed.

Lemma add_row_skipped (obj : JsObject) (row : NodeRow.t) :
  scalar_row row && has_key row = false -> add_row obj row = obj.
Proof.
  unfold add_row, scalar_row, has_key.
  destruct (negb (is_container (NodeRow.type row))); simpl; [|reflexivity].
  destruct (NodeRow.key row) as [k|]; simpl; [|reflexivity].
  now intros ->.
Qed.

(** The loop only sees the rows it keeps. *)
Lemma fold_add_row_filter (rows : list NodeRow.t) :
  forall obj,
    fold_left add_row rows obj
    = fold_left assign (filter (fun row => scalar_row row && has_key row) rows) obj.
Proof.
  induction rows as [|row rows IH]; intros obj; simpl; [reflexivity|].
  destruct (scalar_row row && has_key row) eqn:Hkept.
  - simpl. rewrite add_row_kept by assumption. apply IH.
  - rewrite add_row_skipped by assumption. apply IH.
Qed.

Lemma flat_object_is_spec (rows : list NodeRow.t) :
  fold_left add_row rows empty_object = spec_flat_object rows.
Proof. apply fold_add_row_filter. Qed.

(** [JSON.stringify(obj, null, 2)] writes one indented line per entry. *)
Lemma members_lines (entries : list (string * Prim)) :
  map (fun m => "  " ++ m) (members "  " entries)
  = flat_map (fun kv =>
                match SerializeJSONProperty (snd kv) with
                | Some text => ["  " ++ QuoteJSONString (fst kv) ++ ": " ++ text]
                | None => []
                end) entries.
Proof.
  induction entries as [|[k v] entries IH]; [reflexivity|].
  change (members "  " ((k, v) :: entries))
    with (app (match SerializeJSONProperty v with
               | None => []
               | Some strP => [QuoteJSONString k ++ ":" ++ " " ++ strP]
               end) (members "  " entries)).
  rewrite map_app, IH. cbn [flat_map fst snd]. f_equal.
  destruct (SerializeJSONProperty v) as [text|]; [|reflexivity].
  cbn [map]. unfold QuoteJSONString. now rewrite !append_assoc.
Qed.

Lemma JSON_stringify_pretty (obj : JsObject) :
  JSON_stringify obj 2 = spec_pretty (own_entries obj).
Proof.
  unfold JSON_stringify, spec_pretty.
  change (spaces (Nat.min 10 2)) with "  ".
  rewrite <- members_lines.
  destruct (members "  " (own_entries obj)) as [|m ms] eqn:Hm; [reflexivity|].
  change ("  " =? EmptyString) with false. cbv iota.
  change (EmptyString ++ "  ") with "  ".
  rewrite <- (join_prefixed ("," ++ LF) "  " (parts := m :: ms)) by discriminate.
  cbn [map]. rewrite !append_assoc. reflexivity.
Qed.

(** ** Own properties after an assignment *)

Lemma get_own_has_own (k : string) (ps : list (string * Prim)) :
  has_own k ps = false -> get_own k ps = None.
Proof.
  induction ps as [|[k' v'] ps IH]; simpl; [reflexivity|].
  destruct (k =? k'); [discriminate | exact IH].
Qed.

Lemma get_own_update_same (k : string) (v : Prim) (ps : list (string * Prim)) :
  has_own k ps = true -> get_own k (update_own k v ps) = Some v.
Proof.
  induction ps as [|[k' v'] ps IH]; simpl; [discriminate|].
  destruct (k =? k') eqn:E; simpl; rewrite E; [reflexivity | exact IH].
Qed.

Lemma get_own_update_other (k k' : string) (v : Prim) (ps : list (string * Prim)) :
  k <> k' -> get_own k (update_own k' v ps) = get_own k ps.
Proof.
  intros Hne.
  induction ps as [|[k2 v2] ps IH]; simpl; [reflexivity|].
  destruct (k' =? k2) eqn:E; simpl.
  - apply String.eqb_eq in E. subst k2.
    apply String.eqb_neq in Hne. now rewrite Hne.
  - destruct (k =? k2); [reflexivity | exact IH].
Qed.

Lemma get_own_app (k k' : string) (v : Prim) (ps : list (string * Prim)) :
  get_own k (ps ++ [(k', v)])
  = match get_own k ps with
    | Some x => Some x
    | None => if k =? k' then Some v else None
    end.
Proof.
  induction ps as [|[k2 v2] ps IH]; simpl; [reflexivity|].
  destruct (k =? k2); [reflexivity | exact IH].
Qed.

Lemma get_own_set_same (obj : JsObject) (k : string) (v : Prim) :
  k <> "__proto__" -> get_own k (own (set_property obj k v)) = Some v.
Proof.
  intros Hk. unfold set_property.
  destruct (has_own k (own obj)) eqn:Hh; simpl.
  - now apply get_own_update_same.
  - apply String.eqb_neq in Hk. rewrite Hk. simpl.
    rewrite get_own_app, (get_own_has_own _ _ Hh).
    now rewrite String.eqb_refl.
Qed.

Lemma get_own_set_other (obj : JsObject) (k k' : string) (v : Prim) :
  k <> k' -> get_own k (own (set_property obj k' v)) = get_own k (own obj).
Proof.
  intros Hne. unfold set_property.
  destruct (has_own k' (own obj)); simpl.
  - now apply get_own_update_other.
  - destruct ((k' =? "__proto__") && negb (proto_null obj)).
    + now destruct v.
    + simpl. rewrite get_own_app.
      apply String.eqb_neq in Hne. rewrite Hne.
      now destruct (get_own k (own obj)).
Qed.

Lemma has_key_key_of (row : NodeRow.t) :
  has_key row = true -> NodeRow.key row = Some (key_of row) /\ key_of row <> EmptyString.
Proof.
  unfold has_key, key_of.
  destruct (NodeRow.key row) as [[|c k]|]; simpl; try discriminate.
  intros _. split; [reflexivity | discriminate].
Qed.

Lemma no_key_key_of (row : NodeRow.t) :
  has_key row = false -> key_of row = EmptyString.
Proof.
  unfold has_key, key_of.
  destruct (NodeRow.key row) as [[|c k]|]; simpl; try discriminate; reflexivity.
Qed.

(** What one turn of the loop does to the property [k]. *)
Lemma get_own_add_row (obj : JsObject) (row : NodeRow.t) (k : string) :
  k <> EmptyString -> k <> "__proto__" ->
  get_own k (own (add_row obj row))
  = if scalar_row row && (key_of row =? k)
    then Some (NodeRow.value row) else get_own k (own obj).
Proof.
  intros Hk Hproto.
  destruct (scalar_row row) eqn:Hs; simpl.
  - destruct (has_key row) eqn:Hkey.
    + rewrite add_row_kept by (now rewrite Hs, Hkey). unfold assign.
      destruct (key_of row =? k) eqn:E.
      * apply String.eqb_eq in E. rewrite E. now apply get_own_set_same.
      * apply String.eqb_neq in E. apply get_own_set_other. congruence.
    + rewrite add_row_skipped by (now rewrite Hs, Hkey).
      rewrite (no_key_key_of _ Hkey).
      destruct (EmptyString =? k) eqn:E; [|reflexivity].
      apply String.eqb_eq in E. congruence.
  - now rewrite add_row_skipped by (now rewrite Hs).
Qed.

Lemma get_own_fold_add_row (rows : list NodeRow.t) (k : string) :
  k <> EmptyString -> k <> "__proto__" ->
  forall obj,
    get_own k (own (fold_left add_row rows obj))
    = match spec_lookup k rows with
      | Some v => Some v
      | None => get_own k (own obj)
      end.
Proof.
  intros Hk Hproto.
  induction rows as [|row rows IH]; intros obj; simpl; [reflexivity|].
  rewrite IH. destruct (spec_lookup k rows); [reflexivity|].
  rewrite get_own_add_row by assumption.
  now destruct (scalar_row row && (key_of row =? k)).
Qed.

(** The flat object gives to a key the value of the last row that carries
    it, among the rows whose type is neither array nor object. *)
Lemma flat_object_lookup (rows : list NodeRow.t) (k : string) :
  k <> EmptyString -> k <> "__proto__" ->
  get_own k (own (spec_flat_object rows)) = spec_lookup k rows.
Proof.
  intros Hk Hproto.
  rewrite <- flat_object_is_spec.
  rewrite get_own_fold_add_row by assumption.
  now destruct (spec_lookup k rows).
Qed.

(** C4: the rows [{key:"__proto__", value:1, type:"number"}] and
    [{key:"a", value:2, type:"number"}] are two rows with a key, neither of
    type array or object, so a flat object from each row's key to its value
    has both keys.  The code builds the object by [obj[row.key] = row.value]
    on an object created by [{}]: the first assignment reaches the setter
    inherited from [Object.prototype], which ignores a number, and the text
    has the entry of [a] alone. *)
Theorem normalize_drops_proto_row :
  normalizeNodeData
    (Some [NodeRow.mk (Some "__proto__") (PNumber 1) (Some "number");
           NodeRow.mk (Some "a") (PNumber 2) (Some "number")])
  = "{" ++ LF ++ "  " ++ DQUOTE ++ "a" ++ DQUOTE ++ ": 2" ++ LF ++ "}"
  /\ normalizeNodeData
       (Some [NodeRow.mk (Some "__proto__") (PNumber 1) (Some "number");
              NodeRow.mk (Some "a") (PNumber 2) (Some "number")])
     <> "{" ++ LF ++ "  " ++ DQUOTE ++ "__proto__" ++ DQUOTE ++ ": 1," ++ LF
            ++ "  " ++ DQUOTE ++ "a" ++ DQUOTE ++ ": 2" ++ LF ++ "}".
Proof. split; [reflexivity | discriminate]. Qed.

Lemma normalize_object_case (rows : list NodeRow.t) :
  object_case rows = true ->
  normalizeNodeData (Some rows)
  = JSON_stringify (fold_left add_row rows empty_object) 2.
Proof.
  destruct rows as [|row0 [|row1 rest]]; simpl; try discriminate.
  - unfold has_key. now destruct (truthy (NodeRow.key row0)).
  - reflexivity.
Qed.

(** ** Where the entries of the object come from *)

Lemma In_update_own (k k' : string) (v v' : Prim) (ps : list (string * Prim)) :
  In (k, v) (update_own k' v' ps) -> In (k, v) ps \/ (k = k' /\ v = v').
Proof.
  induction ps as [|[k2 v2] ps IH]; simpl; [tauto|].
  destruct (k' =? k2) eqn:E; simpl.
  - apply String.eqb_eq in E. subst k2.
    intros [[= <- <-]|H]; [now right | left; now right].
  - intros [H|H]; [left; now left|].
    destruct (IH H) as [H'|H']; [left; now right | now right].
Qed.

Lemma In_set_property (obj : JsObject) (k k' : string) (v v' : Prim) :
  In (k, v) (own (set_property obj k' v')) ->
  In (k, v) (own obj) \/ (k = k' /\ v = v').
Proof.
  unfold set_property.
  destruct (has_own k' (own obj)); simpl.
  - apply In_update_own.
  - destruct ((k' =? "__proto__") && negb (proto_null obj)).
    + destruct v'; simpl; tauto.
    + simpl. rewrite in_app_iff. simpl.
      intros [H|[[= <- <-]|[]]]; [now left | now right].
Qed.

Lemma In_insert_index (e e' : N * (string * Prim)) (l : list (N * (string * Prim))) :
  In e' (insert_index e l) -> e' = e \/ In e' l.
Proof.
  induction l as [|x l IH]; simpl.
  - intros [H|[]]; now left.
  - destruct (fst e <=? fst x)%N; simpl.
    + intros [H|[H|H]]; auto.
    + intros [H|H]; [auto|]. destruct (IH H); auto.
Qed.

Lemma In_index_entries (ps : list (string * Prim)) (n : N) (kv : string * Prim) :
  In (n, kv) (index_entries ps) -> In kv ps.
Proof.
  induction ps as [|[k v] ps IH]; simpl; [tauto|].
  destruct (array_index k) as [i|].
  - intros H. apply In_insert_index in H.
    destruct H as [[= _ <-]|H]; [now left | right; now apply IH].
  - intros H. right. now apply IH.
Qed.

(** Every entry [JSON.stringify] enumerates is an own property. *)
Lemma In_own_entries (obj : JsObject) (kv : string * Prim) :
  In kv (own_entries obj) -> In kv (own obj).
Proof.
  unfold own_entries. rewrite in_app_iff, in_map_iff.
  intros [[[n kv'] [Heq H]]|H].
  - simpl in Heq. subst kv'. now apply In_index_entries in H.
  - unfold named_entries in H. now apply filter_In in H.
Qed.

Lemma In_fold_add_row (rows : list NodeRow.t) (k : string) (v : Prim) :
  forall obj,
    In (k, v) (own (fold_left add_row rows obj)) ->
    In (k, v) (own obj)
    \/ exists row, In row rows /\ scalar_row row = true /\ has_key row = true
                   /\ NodeRow.key row = Some k /\ NodeRow.value row = v.
Proof.
  induction rows as [|row rows IH]; intros obj; simpl; [now left|].
  intros H. destruct (IH _ H) as [Hobj|(r & Hin & Hr)].
  - destruct (scalar_row row && has_key row) eqn:Hkept.
    + rewrite add_row_kept in Hobj by assumption.
      apply In_set_property in Hobj. destruct Hobj as [Hobj|[-> ->]]; [now left|].
      right. exists row. apply andb_prop in Hkept. destruct Hkept as [Hs Hk].
      destruct (has_key_key_of _ Hk) as [Hkey _]. auto.
    + rewrite add_row_skipped in Hobj by assumption. now left.
  - right. exists r. auto.
Qed.

(** A row without a key leaves the object as it is. *)
Lemma fold_add_row_drop (before after : list NodeRow.t) (row : NodeRow.t) :
  has_key row = false ->
  forall obj,
    fold_left add_row (before ++ row :: after)%list obj
    = fold_left add_row (before ++ after)%list obj.
Proof.
  intros Hkey obj. rewrite !fold_left_app. simpl.
  rewrite (add_row_skipped _ row); [reflexivity|].
  rewrite Hkey. apply andb_false_r.
Qed.

Lemma fold_add_row_keyed (rows : list NodeRow.t) :
  forall obj,
    fold_left add_row rows obj = fold_left add_row (filter has_key rows) obj.
Proof.
  induction rows as [|row rows IH]; intros obj; simpl; [reflexivity|].
  destruct (has_key row) eqn:Hkey; simpl.
  - apply IH.
  - rewrite (add_row_skipped _ row); [apply IH|].
    rewrite Hkey. apply andb_false_r.
Qed.

(** C9: in the object case of [normalize], a row whose key is absent or
    empty is left out of the object, whatever its type: the result is that
    of the rows that have a key, removing such a row does not change the
    object, and every entry of the object comes from a row with a key. *)
Theorem keyless_rows_are_omitted (rows : list NodeRow.t) :
  object_case rows = true ->
  normalizeNodeData (Some rows)
  = JSON_stringify (fold_left add_row (filter has_key rows) empty_object) 2
  /\ (forall (before : list NodeRow.t) row after,
        rows = (before ++ row :: after)%list -> has_key row = false ->
        fold_left add_row rows empty_object
        = fold_left add_row (before ++ after)%list empty_object)
  /\ (forall k v,
        In (k, v) (own_entries (fold_left add_row rows empty_object)) ->
        k <> EmptyString
        /\ exists row, In row rows /\ has_key row = true
                       /\ NodeRow.key row = Some k /\ NodeRow.value row = v).
Proof.
  intros Hcase. split; [|split].
  - rewrite normalize_object_case by assumption.
    now rewrite <- fold_add_row_keyed.
  - intros before row after -> Hkey. now apply fold_add_row_drop.
  - intros k v H. apply In_own_entries in H.
    apply In_fold_add_row in H. destruct H as [[]|(row & Hin & Hs & Hk & Hkey & Hv)].
    split.
    + destruct (has_key_key_of _ Hk) as [Hsome Hne]. congruence.
    + exists row. auto.
Qed.

Lemma keyless_rows_are_omitted_witness :
  normalizeNodeData
    (Some [NodeRow.mk (Some EmptyString) (PNumber 1) (Some "number");
           NodeRow.mk None (PBool true) (Some "boolean");
           NodeRow.mk (Some "a") (PNumber 2) (Some "number")])
  = normalizeNodeData (Some [NodeRow.mk (Some "a") (PNumber 2) (Some "number")])
  /\ normalizeNodeData (Some [NodeRow.mk (Some "a") (PNumber 2) (Some "number")])
     = "{" ++ LF ++ "  " ++ DQUOTE ++ "a" ++ DQUOTE ++ ": 2" ++ LF ++ "}".
Proof.
  destruct (keyless_rows_are_omitted
              [NodeRow.mk (Some EmptyString) (PNumber 1) (Some "number");
               NodeRow.mk None (PBool true) (Some "boolean");
               NodeRow.mk (Some "a") (PNumber 2) (Some "number")] eq_refl) as [Hout _].
  split; [|reflexivity].
  rewrite Hout. reflexivity.
Defined.

(* ================================================================== *)
(** * The edit session *)
(* ================================================================== *)

Lemma session_eta (s : Session) :
  {| selectedNode := selectedNode s; json := json s;
     fileContents := fileContents s; fileHasChanges := fileHasChanges s;
     opened := opened s; editing := editing s; value := value s;
     error := error s |} = s.
Proof. now destruct s. Qed.

Section SaveFacts.
Context {imports : Imports}.

(** [handleSave], with a node selected, by the outcome of the patch. *)
Lemma handleSave_selected (s : Session) (nodeData : NodeData.t) :
  selectedNode s = Some nodeData ->
  handleSave s
  = match patchDocument (json s) (path_of nodeData) (parsedDraft s) with
    | inr newJson => (inr tt, committed s newJson)
    | inl err => (inr tt, rejected s err)
    end.
Proof.
  intros Hnode.
  cbv beta iota zeta delta
    [handleSave patchDocument parsedDraft bind observe getJson try_catch
     call ret update setJson setFileContents setEditing onClose setError].
  rewrite Hnode. cbv beta iota zeta.
  destruct (JSON_parse (value s)) as [syntaxError|parsed];
    (destruct (modify (json s) (path_of nodeData) _ _) as [err|edits];
     [reflexivity|];
     destruct (applyEdits (json s) edits) as [err|newJson]; reflexivity).
Qed.

Lemma handleSave_unselected (s : Session) :
  selectedNode s = None -> handleSave s = (inr tt, s).
Proof.
  intros Hnode. unfold handleSave, bind, observe, ret. now rewrite Hnode.
Qed.

Lemma rerender_same_opened (before after : Session) :
  opened after = opened before -> rerender before after = after.
Proof.
  intros H. unfold rerender. rewrite H.
  now destruct (opened before).
Qed.
End SaveFacts.

Section SessionClaims.
Context {imports : Imports}.

(** C10: with no node selected, save does nothing: the handler returns at
    once and the document store, the file store, the editing flag, the
    error, the draft text and the open state of the dialog are all left
    as they were. *)
Theorem save_without_node_is_noop (s : Session) :
  selectedNode s = None ->
  handleSave s = (inr tt, s) /\ dispatch ClickSave s = s.
Proof.
  intros Hnode. split; [now apply handleSave_unselected|].
  unfold dispatch, run. rewrite handleSave_unselected by assumption.
  now apply rerender_same_opened.
Qed.

(** C1: when the patcher throws on the path of the node in the current
    document, that is when [modify] throws or [applyEdits] does, save keeps
    the message of the error in the error state, where the dialog shows it,
    stays in the state it was in (Editing remains Editing), does not close
    the dialog, and leaves the text of the document, and the file store,
    exactly as they were. *)
Theorem save_surfaces_patch_error
        (s : Session) (nodeData : NodeData.t) (path : JSONPath)
        (parsed : Json) (err : JsError) :
  selectedNode s = Some nodeData ->
  path = match NodeData.path nodeData with
         | Some p => p
         | None => []
         end ->
  parsed = match JSON_parse (value s) with
           | inr v => v
           | inl _ => JString (value s)
           end ->
  modify (json s) path parsed
         {| formattingOptions := {| insertSpaces := true; tabSize := 2 |} |}
  = inl err
  \/ (exists edits,
        modify (json s) path parsed
               {| formattingOptions := {| insertSpaces := true; tabSize := 2 |} |}
        = inr edits
        /\ applyEdits (json s) edits = inl err) ->
  handleSave s
  = (inr tt,
     {| selectedNode := selectedNode s; json := json s;
        fileContents := fileContents s; fileHasChanges := fileHasChanges s;
        opened := opened s; editing := editing s; value := value s;
        error := Some (error_text err) |})
  /\ dispatch ClickSave s
     = {| selectedNode := selectedNode s; json := json s;
          fileContents := fileContents s; fileHasChanges := fileHasChanges s;
          opened := opened s; editing := editing s; value := value s;
          error := Some (error_text err) |}
  /\ (error_text err <> EmptyString ->
      error_banner (dispatch ClickSave s) = Some (error_text err))
  /\ (message err <> EmptyString ->
      error (dispatch ClickSave s) = Some (message err)).
Proof.
  intros Hnode -> -> Hthrow.
  assert (Hpatch : patchDocument (json s) (path_of nodeData) (parsedDraft s)
                   = inl err).
  { unfold patchDocument, path_of, parsedDraft.
    destruct Hthrow as [Hmodify|(edits & Hmodify & Happly)]; rewrite Hmodify.
    - reflexivity.
    - exact Happly. }
  assert (Hsave : handleSave s = (inr tt, rejected s err)).
  { rewrite (handleSave_selected _ Hnode). now rewrite Hpatch. }
  assert (Hstep : dispatch ClickSave s = rejected s err).
  { unfold dispatch, run. rewrite Hsave. now apply rerender_same_opened. }
  rewrite Hstep. split; [exact Hsave|]. split; [reflexivity|]. split.
  - intros Hmsg. unfold error_banner, rejected. simpl.
    destruct (error_text err); [congruence | reflexivity].
  - intros Hmsg. unfold rejected, error_text. simpl.
    destruct (message err =? EmptyString) eqn:E; [|reflexivity].
    apply String.eqb_eq in E. congruence.
Qed.

(** C2: a draft that is not JSON is not an error of save.  The draft text
    itself, as a string, is the value handed to [modify] for the path of
    the node; when [modify] and [applyEdits] return, the new text is written
    to both stores, the session leaves the Editing state, the dialog closes
    and no error is recorded; the only error save can record is one that
    [modify] or [applyEdits] throws. *)
Theorem save_with_unparsable_draft
        (s : Session) (nodeData : NodeData.t) (path : JSONPath)
        (syntaxError : JsError) :
  selectedNode s = Some nodeData ->
  path = match NodeData.path nodeData with
         | Some p => p
         | None => []
         end ->
  JSON_parse (value s) = inl syntaxError ->
  parsedDraft s = JString (value s)
  /\ (forall edits newJson,
        modify (json s) path (JString (value s))
               {| formattingOptions := {| insertSpaces := true; tabSize := 2 |} |}
        = inr edits ->
        applyEdits (json s) edits = inr newJson ->
        handleSave s
        = (inr tt,
           {| selectedNode := selectedNode s; json := newJson;
              fileContents := newJson; fileHasChanges := false;
              opened := false; editing := false; value := value s;
              error := error s |}))
  /\ (forall err,
        modify (json s) path (JString (value s))
               {| formattingOptions := {| insertSpaces := true; tabSize := 2 |} |}
        = inl err ->
        handleSave s
        = (inr tt,
           {| selectedNode := selectedNode s; json := json s;
              fileContents := fileContents s;
              fileHasChanges := fileHasChanges s; opened := opened s;
              editing := editing s; value := value s;
              error := Some (error_text err) |}))
  /\ (forall edits err,
        modify (json s) path (JString (value s))
               {| formattingOptions := {| insertSpaces := true; tabSize := 2 |} |}
        = inr edits ->
        applyEdits (json s) edits = inl err ->
        handleSave s
        = (inr tt,
           {| selectedNode := selectedNode s; json := json s;
              fileContents := fileContents s;
              fileHasChanges := fileHasChanges s; opened := opened s;
              editing := editing s; value := value s;
              error := Some (error_text err) |})).
Proof.
  intros Hnode -> Hparse.
  assert (Hdraft : parsedDraft s = JString (value s)).
  { unfold parsedDraft. now rewrite Hparse. }
  split; [exact Hdraft|].
  rewrite (handleSave_selected _ Hnode), Hdraft.
  unfold patchDocument, path_of.
  split; [|split].
  - intros edits newJson Hmodify Happly. now rewrite Hmodify, Happly.
  - intros err Hmodify. now rewrite Hmodify.
  - intros edits err Hmodify Happly. now rewrite Hmodify, Happly.
Qed.

(** C6: the document store and the file store change only when a save goes
    through.  Edit, typing, cancel, close, a change of node, a reopening
    and a save that fails (no node, or a patch that throws) leave both as
    they were; a save whose patch returns [newJson] replaces the whole
    document text by [newJson], stores it as the file contents, and marks
    the file as having no unsaved changes. *)
Theorem stores_change_only_on_successful_save (s : Session) :
  stores (dispatch ClickEdit s) = stores s
  /\ (forall typed, stores (dispatch (TypeText typed) s) = stores s)
  /\ stores (dispatch ClickCancel s) = stores s
  /\ stores (dispatch ClickClose s) = stores s
  /\ (forall nodeData, stores (dispatch (NodeChanged nodeData) s) = stores s)
  /\ stores (dispatch Reopen s) = stores s
  /\ (selectedNode s = None -> stores (dispatch ClickSave s) = stores s)
  /\ (forall nodeData err,
        selectedNode s = Some nodeData ->
        patchDocument (json s) (path_of nodeData) (parsedDraft s) = inl err ->
        stores (dispatch ClickSave s) = stores s)
  /\ (forall nodeData newJson,
        selectedNode s = Some nodeData ->
        patchDocument (json s) (path_of nodeData) (parsedDraft s) = inr newJson ->
        json (dispatch ClickSave s) = newJson
        /\ fileContents (dispatch ClickSave s) = newJson
        /\ fileHasChanges (dispatch ClickSave s) = false
        /\ stores (run handleSave s) = (newJson, (newJson, false))).
Proof.
  split; [reflexivity|]. split; [reflexivity|]. split; [reflexivity|].
  split.
  { unfold dispatch, rerender. simpl.
    now destruct (Bool.eqb (opened s) false). }
  split; [reflexivity|]. split.
  { unfold dispatch, rerender. simpl.
    now destruct (Bool.eqb (opened s) true). }
  split.
  { intros Hnode.
    destruct (save_without_node_is_noop s Hnode) as [_ Hstep].
    now rewrite Hstep. }
  split.
  { intros nodeData err Hnode Hpatch.
    unfold dispatch, run.
    rewrite (handleSave_selected _ Hnode), Hpatch.
    now rewrite rerender_same_opened. }
  intros nodeData newJson Hnode Hpatch.
  unfold dispatch, run.
  rewrite (handleSave_selected _ Hnode), Hpatch.
  unfold rerender. simpl.
  now destruct (Bool.eqb (opened s) false).
Qed.

(** C8: when the selected node changes, and when the dialog is opened
    again, the session, whatever state it was in, goes to Viewing, has no
    error, and has for draft the normalization of the rows of the node
    that is now selected. *)
Theorem node_change_or_reopen_resets (s : Session) :
  (forall nodeData : option NodeData.t,
      selectedNode (dispatch (NodeChanged nodeData) s) = nodeData
      /\ editing (dispatch (NodeChanged nodeData) s) = false
      /\ error (dispatch (NodeChanged nodeData) s) = None
      /\ value (dispatch (NodeChanged nodeData) s)
         = normalizeNodeData (Some (rows_of nodeData)))
  /\ (opened s = false ->
      opened (dispatch Reopen s) = true
      /\ selectedNode (dispatch Reopen s) = selectedNode s
      /\ editing (dispatch Reopen s) = false
      /\ error (dispatch Reopen s) = None
      /\ value (dispatch Reopen s)
         = normalizeNodeData (Some (rows_of (selectedNode s)))).
Proof.
  split.
  - intros nodeData. repeat split.
  - intros Hclosed. unfold dispatch, rerender. simpl.
    rewrite Hclosed. simpl. repeat split.
Qed.
End SessionClaims.

(** Cancel computes the session from the node, the stores and the open
    state alone. *)
Lemma handleCancel_from_world (st s : Session) :
  selectedNode st = selectedNode s ->
  json st = json s -> fileContents st = fileContents s ->
  fileHasChanges st = fileHasChanges s -> opened st = opened s ->
  run handleCancel st = run resetEffect s.
Proof.
  intros Hn Hj Hc Hh Ho.
  cbv [run handleCancel resetEffect bind observe update
       setEditing setError setValue snd].
  simpl. now rewrite Hn, Hj, Hc, Hh, Ho.
Qed.

(** C7: whatever was typed into the draft, cancel goes back to Viewing,
    clears the error and sets the draft to the normalized text of the
    selected node; a session that showed a node, entered Editing and
    received any sequence of inputs is, after cancel, exactly the session
    it was before the edit. *)
Theorem cancel_restores_normalized_text (s : Session) :
  (forall typed : string,
      editing (run handleCancel (run (handleChange typed) s)) = false
      /\ error (run handleCancel (run (handleChange typed) s)) = None
      /\ value (run handleCancel (run (handleChange typed) s))
         = normalizeNodeData (Some (rows_of (selectedNode s))))
  /\ value (run resetEffect s)
     = normalizeNodeData (Some (rows_of (selectedNode s)))
  /\ (forall inputs : list string,
        run handleCancel
            (fold_left (fun st typed => run (handleChange typed) st) inputs
                       (run handleEdit (run resetEffect s)))
        = run resetEffect s).
Proof.
  split; [|split].
  - intros typed. repeat split.
  - reflexivity.
  - intros inputs.
    assert (Hinv : forall st,
               selectedNode st = selectedNode s ->
               json st = json s -> fileContents st = fileContents s ->
               fileHasChanges st = fileHasChanges s -> opened st = opened s ->
               run handleCancel
                   (fold_left (fun st typed => run (handleChange typed) st) inputs st)
               = run resetEffect s).
    { induction inputs as [|typed inputs IH]; intros st Hn Hj Hc Hh Ho.
      - now apply handleCancel_from_world.
      - simpl. now apply IH. }
    now apply Hinv.
Qed.

(** ** The claims on a document [42] *)

Lemma save_without_node_is_noop_witness :
  let s := {| selectedNode := None; json := "42"; fileContents := "42";
              fileHasChanges := true; opened := true; editing := true;
              value := "7"; error := None |} in
  selectedNode s = None
  /\ @handleSave Scalar.imports s = (inr tt, s)
  /\ @dispatch Scalar.imports ClickSave s = s.
Proof.
  intros s. split; [reflexivity|].
  apply (@save_without_node_is_noop Scalar.imports s). reflexivity.
Defined.

(** On the document [42] the path [a] leads through a number: [modify]
    throws, and the save is rejected. *)
Lemma save_surfaces_patch_error_witness :
  @dispatch JsoncParser.imports ClickSave
    (editing_session (node_at [SegKey "a"]) "42" "1")
  = {| selectedNode := Some (node_at [SegKey "a"]); json := "42";
       fileContents := "42"; fileHasChanges := false; opened := true;
       editing := true; value := "1";
       error := Some "Can not add index to parent of type number" |}.
Proof.
  destruct (@save_surfaces_patch_error JsoncParser.imports
              (editing_session (node_at [SegKey "a"]) "42" "1")
              (node_at [SegKey "a"]) [SegKey "a"] (JNumber 1)
              {| name := "Error";
                 message := "Can not add index to parent of type number" |}
              eq_refl eq_refl eq_refl (or_introl eq_refl))
    as (_ & Hstep & _).
  exact Hstep.
Defined.

(** Editing the name of the user of [{"user": {"name": "x"}}] to [hello],
    which is not JSON, stores the string ["hello"] at the path of the
    node. *)
Lemma save_with_unparsable_draft_witness :
  @JSON_parse JsoncParser.imports "hello" = inl (Scalar.SyntaxError "hello")
  /\ @handleSave JsoncParser.imports
       (editing_session (node_at [SegKey "user"; SegKey "name"])
                        document_user "hello")
     = (inr tt,
        {| selectedNode := Some (node_at [SegKey "user"; SegKey "name"]);
           json := "{" ++ DQUOTE ++ "user" ++ DQUOTE ++ ": {" ++ DQUOTE
                       ++ "name" ++ DQUOTE ++ ": " ++ DQUOTE ++ "hello"
                       ++ DQUOTE ++ "}}";
           fileContents := "{" ++ DQUOTE ++ "user" ++ DQUOTE ++ ": {" ++ DQUOTE
                               ++ "name" ++ DQUOTE ++ ": " ++ DQUOTE ++ "hello"
                               ++ DQUOTE ++ "}}";
           fileHasChanges := false; opened := false; editing := false;
           value := "hello"; error := None |}).
Proof.
  split; [reflexivity|].
  destruct (@save_with_unparsable_draft JsoncParser.imports
              (editing_session (node_at [SegKey "user"; SegKey "name"])
                               document_user "hello")
              (node_at [SegKey "user"; SegKey "name"])
              [SegKey "user"; SegKey "name"]
              (Scalar.SyntaxError "hello") eq_refl eq_refl eq_refl)
    as (_ & Hok & _).
  apply (Hok [Edit.mk 18 3 (DQUOTE ++ "hello" ++ DQUOTE)]); reflexivity.
Defined.

(** Editing [42] to [abc] stores the string ["abc"]. *)
Lemma save_abc_over_42 :
  json (@dispatch JsoncParser.imports ClickSave
          (editing_session (node_at []) "42" "abc"))
  = DQUOTE ++ "abc" ++ DQUOTE.
Proof. reflexivity. Qed.

(** ** Saves that do not end as expected *)

(** The path [a] addresses nothing in [{"x":1}], and the index 5 nothing in
    [[1,2]]; on both, save raises no error: it leaves Editing, closes the
    dialog and replaces the document by one in which the path addresses a
    location. *)
Lemma save_on_missing_location_commits :
  (JsoncParser.addresses document_x [SegKey "a"] = false
   /\ error (@dispatch JsoncParser.imports ClickSave
               (editing_session (node_at [SegKey "a"]) document_x "2")) = None
   /\ editing (@dispatch JsoncParser.imports ClickSave
                 (editing_session (node_at [SegKey "a"]) document_x "2")) = false
   /\ opened (@dispatch JsoncParser.imports ClickSave
                (editing_session (node_at [SegKey "a"]) document_x "2")) = false
   /\ json (@dispatch JsoncParser.imports ClickSave
              (editing_session (node_at [SegKey "a"]) document_x "2"))
      <> document_x
   /\ JsoncParser.addresses
        (json (@dispatch JsoncParser.imports ClickSave
                 (editing_session (node_at [SegKey "a"]) document_x "2")))
        [SegKey "a"] = true)
  /\ (JsoncParser.addresses "[1,2]" [SegIndex 5] = false
      /\ error (@dispatch JsoncParser.imports ClickSave
                  (editing_session (node_at [SegIndex 5]) "[1,2]" "9")) = None
      /\ opened (@dispatch JsoncParser.imports ClickSave
                   (editing_session (node_at [SegIndex 5]) "[1,2]" "9")) = false
      /\ json (@dispatch JsoncParser.imports ClickSave
                 (editing_session (node_at [SegIndex 5]) "[1,2]" "9"))
         <> "[1,2]").
Proof.
  vm_compute. repeat split; discriminate.
Qed.

(** The draft [abc] is not JSON, and the save of it on the path [a] of the
    document [42] fails: the error of the patcher is shown, the session
    stays Editing with the dialog open, and the document is untouched. *)
Lemma save_of_unparsable_draft_can_fail :
  @JSON_parse JsoncParser.imports "abc" = inl (Scalar.SyntaxError "abc")
  /\ @dispatch JsoncParser.imports ClickSave
       (editing_session (node_at [SegKey "a"]) "42" "abc")
     = {| selectedNode := Some (node_at [SegKey "a"]); json := "42";
          fileContents := "42"; fileHasChanges := false; opened := true;
          editing := true; value := "abc";
          error := Some "Can not add index to parent of type number" |}.
Proof. split; reflexivity. Qed.

Lemma stores_change_only_on_successful_save_witness :
  stores (@dispatch Scalar.imports ClickSave stale_session) = ("42", ("42", true))
  /\ stores (@dispatch Scalar.imports ClickSave (session_42 "17"))
     = ("17", ("17", false)).
Proof.
  destruct (@stores_change_only_on_successful_save Scalar.imports stale_session)
    as (_ & _ & _ & _ & _ & _ & _ & Hfail & _).
  destruct (@stores_change_only_on_successful_save Scalar.imports (session_42 "17"))
    as (_ & _ & _ & _ & _ & _ & _ & _ & Hok).
  split.
  - apply (Hfail stale_node
             {| name := "Error"; message := "Can not address the path" |}
             eq_refl eq_refl).
  - destruct (Hok root_node "17" eq_refl eq_refl) as (Hj & Hc & Hh & _).
    unfold stores. now rewrite Hj, Hc, Hh.
Defined.

Lemma node_change_or_reopen_resets_witness :
  let closed := {| selectedNode := Some root_node; json := "42";
                   fileContents := "42"; fileHasChanges := false;
                   opened := false; editing := true; value := "4";
                   error := Some "Overlapping edit" |} in
  opened closed = false
  /\ editing (@dispatch Scalar.imports Reopen closed) = false
  /\ error (@dispatch Scalar.imports Reopen closed) = None
  /\ value (@dispatch Scalar.imports Reopen closed) = "42".
Proof.
  intros closed. split; [reflexivity|].
  destruct (@node_change_or_reopen_resets Scalar.imports closed) as [_ Hreopen].
  destruct (Hreopen eq_refl) as (_ & _ & He & Herr & Hv).
  split; [exact He|]. split; [exact Herr|].
  rewrite Hv. reflexivity.
Defined.

(* ================================================================== *)
(** * The document patcher *)
(* ================================================================== *)

Lemma member_set_member (k : string) (v old : Json) (props : list (string * Json)) :
  DocumentPatcher.member k props = Some old ->
  DocumentPatcher.member k (DocumentPatcher.set_member k v props) = Some v.
Proof.
  induction props as [|[k' v'] props IH]; simpl; [discriminate|].
  destruct (k =? k') eqn:E; simpl; rewrite E; [reflexivity | exact IH].
Qed.

Lemma nth_error_set_item (i : nat) (v old : Json) (items : list Json) :
  nth_error items i = Some old ->
  nth_error (DocumentPatcher.set_item i v items) i = Some v.
Proof.
  revert i. induction items as [|x items IH]; intros [|i]; simpl;
    try discriminate; [reflexivity | apply IH].
Qed.

Lemma child_set_child (document : Json) (seg : Segment) (v old : Json) :
  DocumentPatcher.child document seg = Some old ->
  DocumentPatcher.child (DocumentPatcher.set_child document seg v) seg = Some v.
Proof.
  destruct seg as [k|i], document; simpl; try discriminate.
  - apply member_set_member.
  - destruct (i <? 0)%Z; [discriminate | apply nth_error_set_item].
Qed.

(** A path that addresses no location is refused. *)
Lemma patch_needs_location (path : JSONPath) :
  forall (document v : Json),
    DocumentPatcher.resolve document path = None ->
    DocumentPatcher.patch document path v = inl DocumentPatcher.NoSuchLocation.
Proof.
  induction path as [|seg rest IH]; intros document v; simpl; [discriminate|].
  destruct (DocumentPatcher.child document seg) as [inner|]; [|reflexivity].
  intros Hres. now rewrite (IH inner v Hres).
Qed.

(** C3: for a document [D], a path [p] that addresses a scalar of [D] and
    a value [v], the patch of [D] at [p] with [v] succeeds, and reading the
    path [p] in the patched document gives [v]. *)
Theorem patch_then_resolve
        (D : Json) (p : JSONPath) (v scalar : Json) :
  DocumentPatcher.resolve D p = Some scalar ->
  DocumentPatcher.is_scalar scalar = true ->
  exists D',
    DocumentPatcher.patch D p v = inr D'
    /\ DocumentPatcher.resolve D' p = Some v.
Proof.
  intros Hres _. revert D Hres.
  induction p as [|seg rest IH]; intros D; simpl.
  - intros _. now exists v.
  - destruct (DocumentPatcher.child D seg) as [inner|] eqn:Hchild;
      [|discriminate].
    intros Hres. destruct (IH inner Hres) as (inner' & Hpatch & Hread).
    rewrite Hpatch. eexists. split; [reflexivity|].
    simpl. now rewrite (child_set_child _ _ inner' Hchild).
Qed.

Lemma patch_then_resolve_witness :
  let D := JObject [("name", JString "x");
                    ("tags", JArray [JNumber 1; JNumber 2])] in
  DocumentPatcher.resolve D [SegKey "tags"; SegIndex 1] = Some (JNumber 2)
  /\ exists D',
       DocumentPatcher.patch D [SegKey "tags"; SegIndex 1] (JString "hello")
       = inr D'
       /\ DocumentPatcher.resolve D' [SegKey "tags"; SegIndex 1]
          = Some (JString "hello").
Proof.
  intros D. split; [reflexivity|].
  apply (patch_then_resolve D [SegKey "tags"; SegIndex 1] (JString "hello")
           (scalar := JNumber 2)); reflexivity.
Defined.

(* ================================================================== *)
(** * The sessions the dialog can reach *)
(* ================================================================== *)

Section ReachableFacts.
Context {imports : Imports}.

(** Every outcome of [handleSave]: nothing, a rejection, or a commit. *)
Lemma handleSave_outcomes (s : Session) :
  handleSave s = (inr tt, s)
  \/ (exists err, handleSave s = (inr tt, rejected s err))
  \/ (exists newJson, handleSave s = (inr tt, committed s newJson)).
Proof.
  destruct (selectedNode s) as [nodeData|] eqn:Hnode.
  - rewrite (handleSave_selected _ Hnode).
    destruct (patchDocument (json s) (path_of nodeData) (parsedDraft s))
      as [err|newJson].
    + right. left. now exists err.
    + right. right. now exists newJson.
  - left. now apply handleSave_unselected.
Qed.

(** What holds of a session that is Viewing, and of one that is closed. *)
Lemma reachable_settled (s : Session) :
  reachable s ->
  (editing s = false ->
   error s = None
   /\ value s = normalizeNodeData (Some (rows_of (selectedNode s))))
  /\ (opened s = false -> editing s = false).
Proof.
  induction 1 as [nodeData document file changes isOpened | s e Hreach IH Hen].
  - split; [intros _; split|intros _]; reflexivity.
  - destruct IH as [IHview IHclosed].
    destruct e as [|typed| | | |nodeData|]; simpl in Hen.
    + (* ClickEdit *)
      unfold shows in Hen. simpl in Hen.
      apply andb_prop in Hen. destruct Hen as [Hopen _].
      split; simpl; [discriminate | congruence].
    + (* TypeText *)
      unfold shows_textarea in Hen. simpl in Hen.
      apply andb_prop in Hen. destruct Hen as [Hopen Hed].
      destruct (editing s) eqn:Hediting; [|discriminate].
      split; simpl; rewrite ?Hediting; [discriminate | congruence].
    + (* ClickCancel *)
      split; simpl; [intros _; split; reflexivity | reflexivity].
    + (* ClickSave *)
      unfold shows in Hen. simpl in Hen.
      apply andb_prop in Hen. destruct Hen as [Hopen Hed].
      destruct (editing s) eqn:Hediting; [|discriminate].
      unfold dispatch, run.
      destruct (handleSave_outcomes s) as [Hsave|[[err Hsave]|[newJson Hsave]]];
        rewrite Hsave; simpl.
      * rewrite rerender_same_opened by reflexivity.
        split; [congruence | congruence].
      * rewrite rerender_same_opened by reflexivity.
        split; simpl; rewrite ?Hediting; [discriminate | congruence].
      * unfold rerender. simpl. rewrite Hopen. simpl.
        split; [intros _; split; reflexivity | reflexivity].
    + (* ClickClose *)
      unfold dispatch, rerender. simpl.
      destruct (Bool.eqb (opened s) false); simpl;
        (split; [intros _; split; reflexivity | reflexivity]).
    + (* NodeChanged *)
      split; simpl; [intros _; split; reflexivity | reflexivity].
    + (* Reopen *)
      unfold dispatch, rerender. simpl.
      destruct (opened s) eqn:Hopen; simpl.
      * split; [exact IHview | discriminate].
      * split; [intros _; split; reflexivity | reflexivity].
Qed.

(** X1: in every session the dialog can reach, while it is Viewing the
    draft is the text the code area displays, the normalized rows of the
    selected node; so the text area that Edit opens starts from exactly the
    text that was on the screen. *)
Theorem edit_starts_from_displayed_text (s : Session) :
  reachable s ->
  enabled ClickEdit s = true ->
  content (render s) = CodeHighlight (value s)
  /\ value s = normalizeNodeData (Some (rows_of (selectedNode s)))
  /\ content (render (dispatch ClickEdit s)) = Textarea (value s).
Proof.
  intros Hreach Hen.
  destruct (reachable_settled Hreach) as [Hview _].
  unfold enabled, shows in Hen. simpl in Hen.
  apply andb_prop in Hen. destruct Hen as [_ Hed].
  destruct (editing s) eqn:Hediting; [discriminate|].
  destruct (Hview eq_refl) as [_ Hvalue].
  split; [|split; [exact Hvalue|reflexivity]].
  unfold render. cbn [content]. rewrite Hediting. cbn [negb].
  now rewrite <- Hvalue.
Qed.

(** X2: in every session the dialog can reach, a closed dialog is Viewing,
    and a Viewing session has no error: the error message is on the screen
    only while Editing. *)
Theorem error_only_while_editing (s : Session) :
  reachable s ->
  (opened s = false -> editing s = false)
  /\ (editing s = false -> error s = None /\ errorText (render s) = None)
  /\ (forall msg, errorText (render s) = Some msg ->
        editing s = true /\ opened s = true).
Proof.
  intros Hreach.
  destruct (reachable_settled Hreach) as [Hview Hclosed].
  split; [exact Hclosed|]. split.
  - intros Hed. destruct (Hview Hed) as [Herr _].
    split; [exact Herr|]. unfold render, error_banner. simpl. now rewrite Herr.
  - intros msg Hmsg.
    destruct (editing s) eqn:Hediting.
    + split; [reflexivity|].
      destruct (opened s) eqn:Hopen; [reflexivity|].
      specialize (Hclosed eq_refl). congruence.
    + destruct (Hview eq_refl) as [Herr _].
      unfold render, error_banner in Hmsg. simpl in Hmsg.
      rewrite Herr in Hmsg. discriminate.
Qed.
End ReachableFacts.

Section SaveOutcome.
Context {imports : Imports}.

(** X3: whatever [JSON.parse], [modify] and [applyEdits] do, [handleSave]
    returns without throwing, keeps the selected node and the draft, and is
    all or nothing: either the stores, the open state and the editing flag
    are what they were, or the document and the file contents are one and
    the same new text, the file has no unsaved changes, the session has left
    Editing and the dialog is closed. *)
Theorem save_is_caught_and_all_or_nothing (s : Session) :
  fst (handleSave s) = inr tt
  /\ selectedNode (run handleSave s) = selectedNode s
  /\ value (run handleSave s) = value s
  /\ ((stores (run handleSave s) = stores s
       /\ opened (run handleSave s) = opened s
       /\ editing (run handleSave s) = editing s)
      \/ (json (run handleSave s) = fileContents (run handleSave s)
          /\ fileHasChanges (run handleSave s) = false
          /\ editing (run handleSave s) = false
          /\ opened (run handleSave s) = false
          /\ error (run handleSave s) = error s)).
Proof.
  unfold run.
  destruct (handleSave_outcomes s) as [Hsave|[[err Hsave]|[newJson Hsave]]];
    rewrite Hsave; simpl.
  - repeat split. left. repeat split.
  - repeat split. left. repeat split.
  - repeat split. right. repeat split.
Qed.

Lemma error_text_empty (err : JsError) :
  error_text err = EmptyString <-> name err = EmptyString /\ message err = EmptyString.
Proof.
  unfold error_text, String_of_error.
  destruct (message err) as [|c m] eqn:Hm; simpl.
  - destruct (name err) as [|d n] eqn:Hn; simpl.
    + tauto.
    + split; [discriminate | intros [H _]; discriminate].
  - split; [discriminate | intros [_ H]; discriminate].
Qed.

(** X4: a save whose patch throws puts a message on the screen as soon as
    the error has a name or a message: the message of the error when it has
    one, its name otherwise. *)
Theorem failed_save_shows_message
        (s : Session) (nodeData : NodeData.t) (err : JsError) :
  selectedNode s = Some nodeData ->
  patchDocument (json s) (path_of nodeData) (parsedDraft s) = inl err ->
  name err <> EmptyString \/ message err <> EmptyString ->
  errorText (render (dispatch ClickSave s)) = Some (error_text err)
  /\ (message err <> EmptyString -> error_text err = message err)
  /\ (message err = EmptyString -> error_text err = name err).
Proof.
  intros Hnode Hpatch Hnamed.
  assert (Hstep : dispatch ClickSave s = rejected s err).
  { unfold dispatch, run. rewrite (handleSave_selected _ Hnode), Hpatch.
    now apply rerender_same_opened. }
  rewrite Hstep. split; [|split].
  - unfold render, error_banner, rejected. simpl.
    destruct (error_text err) eqn:Htext; [|reflexivity].
    apply error_text_empty in Htext. destruct Htext. tauto.
  - intros Hm. unfold error_text.
    destruct (message err =? EmptyString) eqn:E; [|reflexivity].
    apply String.eqb_eq in E. congruence.
  - intros Hm. unfold error_text, String_of_error. rewrite Hm. simpl.
    now destruct (name err).
Qed.

(** X5: the close button does what cancel does and closes: from any
    session, the session after a click on it is the session after cancel
    with the dialog closed, and the two stores are untouched. *)
Theorem close_is_cancel_then_close (s : Session) :
  dispatch ClickClose s = run onClose (dispatch ClickCancel s)
  /\ opened (dispatch ClickClose s) = false
  /\ editing (dispatch ClickClose s) = false
  /\ error (dispatch ClickClose s) = None.
Proof.
  unfold dispatch, rerender. simpl.
  destruct (Bool.eqb (opened s) false); repeat split.
Qed.

(** X6: a node whose only row is a string without a key, opened and saved
    without typing: the draft is the string itself, and what the patcher
    receives depends on [JSON.parse] alone; it is the same string when the
    text is not JSON, and the parsed value, no longer that string, when the
    text happens to be JSON. *)
Theorem untouched_string_node
        (s : Session) (text : string) (path : option JSONPath) :
  selectedNode s = Some (string_node text path) ->
  value (dispatch ClickEdit (run resetEffect s)) = text
  /\ (forall syntaxError,
        JSON_parse text = inl syntaxError ->
        parsedDraft (dispatch ClickEdit (run resetEffect s)) = JString text)
  /\ (forall parsed,
        JSON_parse text = inr parsed ->
        parsedDraft (dispatch ClickEdit (run resetEffect s)) = parsed).
Proof.
  intros Hnode.
  assert (Hvalue : value (dispatch ClickEdit (run resetEffect s)) = text).
  { simpl. now rewrite Hnode. }
  split; [exact Hvalue|].
  unfold parsedDraft. rewrite Hvalue.
  split; intros x Hx; now rewrite Hx.
Qed.
End SaveOutcome.

Lemma failed_save_shows_message_witness :
  errorText (render (@dispatch Scalar.imports ClickSave stale_session))
  = Some "Can not address the path".
Proof.
  assert (Hnamed : "Error" <> EmptyString) by discriminate.
  destruct (@failed_save_shows_message Scalar.imports stale_session stale_node
              {| name := "Error"; message := "Can not address the path" |}
              eq_refl eq_refl (or_introl Hnamed))
    as [Hshown _].
  exact Hshown.
Defined.

Lemma untouched_string_node_witness :
  let s := {| selectedNode := Some (string_node "42" (Some []));
              json := DQUOTE ++ "42" ++ DQUOTE;
              fileContents := DQUOTE ++ "42" ++ DQUOTE;
              fileHasChanges := false; opened := true; editing := false;
              value := EmptyString; error := None |} in
  @parsedDraft Scalar.imports (@dispatch Scalar.imports ClickEdit (run resetEffect s))
  = JNumber 42.
Proof.
  intros s.
  destruct (@untouched_string_node Scalar.imports s "42" (Some []) eq_refl)
    as (_ & _ & Hparsed).
  apply Hparsed. reflexivity.
Defined.

Lemma edit_starts_from_displayed_text_witness :
  let s := run resetEffect (mounted (Some root_node) "42" "42" false true) in
  content (render (@dispatch Scalar.imports ClickEdit s)) = Textarea "42".
Proof.
  intros s.
  destruct (@edit_starts_from_displayed_text Scalar.imports s
              (@reachable_mount Scalar.imports (Some root_node) "42" "42" false true)
              eq_refl) as (_ & _ & Hshown).
  exact Hshown.
Defined.

Lemma error_only_while_editing_witness :
  let s := @dispatch Scalar.imports ClickClose
             (@dispatch Scalar.imports ClickSave
                (@dispatch Scalar.imports ClickEdit
                   (run resetEffect
                        (mounted (Some stale_node) "42" "42" true true)))) in
  opened s = false /\ editing s = false /\ error s = None.
Proof.
  intros s.
  assert (Hreach : @reachable Scalar.imports s).
  { unfold s. apply reachable_step; [|reflexivity].
    apply reachable_step; [|reflexivity].
    apply reachable_step; [|reflexivity].
    apply reachable_mount. }
  destruct (@error_only_while_editing Scalar.imports s Hreach)
    as (Hclosed & Hview & _).
  split; [reflexivity|]. split; [now apply Hclosed|].
  destruct (Hview (Hclosed eq_refl)) as [Herr _]. exact Herr.
Defined.

(* ================================================================== *)
(** * More on [jsonPathToString] *)
(* ================================================================== *)

Lemma concat_empty_cons (x : string) (l : list string) :
  String.concat EmptyString (x :: l) = x ++ String.concat EmptyString l.
Proof.
  destruct l as [|y l]; simpl; [now rewrite append_empty_r | reflexivity].
Qed.

Lemma concat_empty_app (l1 l2 : list string) :
  String.concat EmptyString (l1 ++ l2)%list
  = String.concat EmptyString l1 ++ String.concat EmptyString l2.
Proof.
  induction l1 as [|x l1 IH]; [reflexivity|].
  rewrite <- app_comm_cons, !concat_empty_cons, IH.
  now rewrite append_assoc.
Qed.

(** The path as the dollar sign followed by its bracketed segments. *)
Lemma jsonPathToString_segments (segs : JSONPath) :
  jsonPathToString (Some segs)
  = "$" ++ String.concat EmptyString (map spec_segment segs).
Proof.
  destruct segs as [|seg rest]; [reflexivity|].
  unfold jsonPathToString.
  change ("$[" ++ join "][" (map segment_text (seg :: rest)) ++ "]")
    with ("$" ++ ("[" ++ join ("]" ++ "[") (map segment_text (seg :: rest)) ++ "]")).
  rewrite join_bracketed by discriminate.
  rewrite map_map. f_equal. f_equal.
  apply map_ext. intros s. now rewrite spec_segment_brackets.
Qed.

(** X7: the text of a path extends the text of each of its prefixes: the
    path of a node below another starts with the path of that node, and
    goes on with one bracket per further segment. *)
Theorem jsonPathToString_extends (parent below : JSONPath) :
  jsonPathToString (Some (parent ++ below)%list)
  = jsonPathToString (Some parent)
      ++ String.concat EmptyString (map spec_segment below).
Proof.
  rewrite !jsonPathToString_segments, map_app, concat_empty_app.
  now rewrite append_assoc.
Qed.

Lemma string_forall_impl (p q : ascii -> bool) (s : string) :
  (forall c, p c = true -> q c = true) ->
  string_forall p s = true -> string_forall q s = true.
Proof.
  intros Hpq. induction s as [|c s IH]; simpl; [reflexivity|].
  intros H. apply andb_prop in H. destruct H as [Hc Hs].
  now rewrite (Hpq c Hc), (IH Hs).
Qed.

(** Two texts cut at the first occurrence of a character. *)
Lemma append_split_at (c : ascii) (a a' r r' : string) :
  string_forall (fun x => negb (Ascii.eqb x c)) a = true ->
  string_forall (fun x => negb (Ascii.eqb x c)) a' = true ->
  a ++ String c r = a' ++ String c r' ->
  a = a' /\ r = r'.
Proof.
  revert a'. induction a as [|x a IH]; intros [|x' a']; simpl.
  - intros _ _ [= ->]. now split.
  - intros _ H [= <- _]. now rewrite Ascii.eqb_refl in H.
  - intros H _ [= -> _]. now rewrite Ascii.eqb_refl in H.
  - intros H H' [= <- Heq].
    apply andb_prop in H. apply andb_prop in H'.
    destruct H as [_ H]. destruct H' as [_ H'].
    destruct (IH a' H H' Heq) as [-> ->]. now split.
Qed.

Lemma uint_numeral_chars (d : Decimal.uint) :
  string_forall numeral_char (NilEmpty.string_of_uint d) = true.
Proof. induction d; simpl; auto. Qed.

Lemma Number_toString_chars (n : Z) :
  string_forall numeral_char (Number_toString n) = true.
Proof.
  unfold Number_toString.
  destruct (Z.to_int n) as [d|d]; simpl.
  - destruct d; simpl; auto using uint_numeral_chars.
  - destruct d; simpl; auto using uint_numeral_chars.
Qed.

Lemma Number_toString_inj (n m : Z) :
  Number_toString n = Number_toString m -> n = m.
Proof.
  intros H.
  assert (Hn := Number_toString_decimal n).
  rewrite H, Number_toString_decimal in Hn. congruence.
Qed.

Lemma numeral_without (c : ascii) (s : string) :
  numeral_char c = false ->
  string_forall numeral_char s = true ->
  string_forall (fun x => negb (Ascii.eqb x c)) s = true.
Proof.
  intros Hc. apply string_forall_impl. intros x Hx.
  destruct (Ascii.eqb_spec x c) as [->|]; [congruence | reflexivity].
Qed.

Lemma segments_inj (p : JSONPath) :
  forall q : JSONPath,
    forallb segment_quote_free p = true ->
    forallb segment_quote_free q = true ->
    String.concat EmptyString (map spec_segment p)
    = String.concat EmptyString (map spec_segment q) ->
    p = q.
Proof.
  induction p as [|seg p IH]; intros [|seg' q] Hp Hq.
  - reflexivity.
  - cbn [map]. rewrite concat_empty_cons. destruct seg'; discriminate.
  - cbn [map]. rewrite concat_empty_cons. destruct seg; discriminate.
  - cbn [map]. rewrite !concat_empty_cons.
    cbn [forallb] in Hp, Hq.
    apply andb_prop in Hp. apply andb_prop in Hq.
    destruct Hp as [Hseg Hp]. destruct Hq as [Hseg' Hq].
    set (R := String.concat EmptyString (map spec_segment p)).
    set (R' := String.concat EmptyString (map spec_segment q)).
    assert (Htail : R = R' -> p = q) by (apply IH; assumption).
    clearbody R R'.
    destruct seg as [k|n], seg' as [k'|n']; cbn [spec_segment segment_quote_free] in *.
    + rewrite !append_assoc. cbn [append DQUOTE]. intros [= Heq].
      apply append_split_at in Heq;
        [|assumption|assumption].
      destruct Heq as [-> [= HR]]. now rewrite (Htail HR).
    + rewrite !append_assoc. cbn [append DQUOTE]. intros [= Heq].
      assert (Hchars := Number_toString_chars n').
      destruct (Number_toString n') as [|c rest]; cbn [append] in Heq.
      * discriminate.
      * injection Heq as <- _. simpl in Hchars. discriminate.
    + rewrite !append_assoc. cbn [append DQUOTE]. intros [= Heq].
      assert (Hchars := Number_toString_chars n).
      destruct (Number_toString n) as [|c rest]; cbn [append] in Heq.
      * discriminate.
      * injection Heq as -> _. simpl in Hchars. discriminate.
    + rewrite !append_assoc. cbn [append]. intros [= Heq].
      apply append_split_at in Heq;
        [|apply numeral_without; [reflexivity | apply Number_toString_chars]..].
      destruct Heq as [Hnum HR].
      apply Number_toString_inj in Hnum. subst n'.
      now rewrite (Htail HR).
Qed.

(** X8: on the paths whose keys hold no double quote, the text of the path
    tells the path: two such paths with the same text are the same path. *)
Theorem jsonPathToString_injective (p q : JSONPath) :
  forallb segment_quote_free p = true ->
  forallb segment_quote_free q = true ->
  jsonPathToString (Some p) = jsonPathToString (Some q) ->
  p = q.
Proof.
  intros Hp Hq. rewrite !jsonPathToString_segments. intros [= Heq].
  now apply segments_inj.
Qed.

Lemma jsonPathToString_injective_witness :
  [SegKey "a"; SegIndex 0] = [SegKey "a"; SegIndex 0].
Proof.
  apply (jsonPathToString_injective [SegKey "a"; SegIndex 0]
           [SegKey "a"; SegIndex 0]); reflexivity.
Defined.

(** X9: a key that holds a double quote is copied as it is, so the text no
    longer tells the path: the one-segment path whose key is [a"]["b] has
    the text of the two-segment path [a], [b], for all [a] and [b]. *)
Theorem jsonPathToString_collision (a b : string) :
  jsonPathToString (Some [SegKey (a ++ DQUOTE ++ "][" ++ DQUOTE ++ b)])
  = jsonPathToString (Some [SegKey a; SegKey b])
  /\ [SegKey (a ++ DQUOTE ++ "][" ++ DQUOTE ++ b)] <> [SegKey a; SegKey b].
Proof.
  split; [|discriminate].
  unfold jsonPathToString, join. cbn [map String.concat segment_text].
  f_equal. rewrite !append_assoc. reflexivity.
Qed.

(* ================================================================== *)
(** * More on [normalizeNodeData] *)
(* ================================================================== *)

(** X10: when the rows are not the single row without a key, and each of
    them is of type array or object or has no key, the text is [{}]: a node
    made of nested values only shows an empty object. *)
Theorem normalize_without_kept_rows (rows : list NodeRow.t) :
  object_case rows = true ->
  (forall row, In row rows -> scalar_row row && has_key row = false) ->
  normalizeNodeData (Some rows) = "{}".
Proof.
  intros Hcase Hnone.
  rewrite normalize_object_case by assumption.
  rewrite fold_add_row_filter.
  assert (Hfilter : filter (fun row => scalar_row row && has_key row) rows = []).
  { clear Hcase. induction rows as [|row rows IH]; [reflexivity|].
    simpl. rewrite (Hnone row) by now left.
    apply IH. intros r Hr. apply Hnone. now right. }
  rewrite Hfilter. reflexivity.
Qed.

Lemma normalize_without_kept_rows_witness :
  normalizeNodeData
    (Some [NodeRow.mk (Some "items") PNull (Some "array");
           NodeRow.mk (Some "owner") PNull (Some "object");
           NodeRow.mk None (PNumber 3) (Some "number")])
  = "{}".
Proof.
  apply normalize_without_kept_rows; [reflexivity|].
  intros row [<-|[<-|[<-|[]]]]; reflexivity.
Defined.

(** X11: among the rows that have this key, the last one that is not of
    type array or object gives the value of the object at a key: an earlier
    row with the same key is overwritten. *)
Theorem last_row_of_a_key_wins (rows : list NodeRow.t) (k : string) :
  k <> EmptyString -> k <> "__proto__" ->
  get_own k (own (fold_left add_row rows empty_object)) = spec_lookup k rows
  /\ forall before row after,
       rows = (before ++ row :: after)%list ->
       scalar_row row = true -> NodeRow.key row = Some k ->
       spec_lookup k after = None ->
       get_own k (own (fold_left add_row rows empty_object))
       = Some (NodeRow.value row).
Proof.
  intros Hk Hproto.
  assert (Hlookup : get_own k (own (fold_left add_row rows empty_object))
                    = spec_lookup k rows).
  { rewrite get_own_fold_add_row by assumption.
    now destruct (spec_lookup k rows). }
  split; [exact Hlookup|].
  intros before row after -> Hscalar Hkey Hafter.
  rewrite Hlookup. clear Hlookup.
  induction before as [|r before IH]; simpl.
  - rewrite Hafter, Hscalar. unfold key_of. rewrite Hkey.
    now rewrite String.eqb_refl.
  - now rewrite IH.
Qed.

Lemma last_row_of_a_key_wins_witness :
  get_own "a"
    (own (fold_left add_row
            [NodeRow.mk (Some "a") (PNumber 1) (Some "number");
             NodeRow.mk (Some "a") (PNumber 2) (Some "number");
             NodeRow.mk (Some "a") PNull (Some "array")]
            empty_object))
  = Some (PNumber 2).
Proof.
  assert (Hk : "a" <> EmptyString) by discriminate.
  assert (Hproto : "a" <> "__proto__") by discriminate.
  destruct (last_row_of_a_key_wins
              [NodeRow.mk (Some "a") (PNumber 1) (Some "number");
               NodeRow.mk (Some "a") (PNumber 2) (Some "number");
               NodeRow.mk (Some "a") PNull (Some "array")] Hk Hproto)
    as [_ Hlast].
  apply (Hlast [NodeRow.mk (Some "a") (PNumber 1) (Some "number")]
               (NodeRow.mk (Some "a") (PNumber 2) (Some "number"))
               [NodeRow.mk (Some "a") PNull (Some "array")]);
    reflexivity.
Defined.

(** ** Rows keyed [__proto__] *)

Lemma has_own_update_own (k k' : string) (v : Prim) (ps : list (string * Prim)) :
  has_own k (update_own k' v ps) = has_own k ps.
Proof.
  induction ps as [|[k2 v2] ps IH]; simpl; [reflexivity|].
  destruct (k' =? k2) eqn:E; simpl; [reflexivity|].
  now rewrite IH.
Qed.

Lemma has_own_app (k k' : string) (v : Prim) (ps : list (string * Prim)) :
  has_own k (ps ++ [(k', v)]) = has_own k ps || (k =? k').
Proof.
  induction ps as [|[k2 v2] ps IH]; simpl.
  - now destruct (k =? k').
  - destruct (k =? k2); [reflexivity | exact IH].
Qed.

Lemma has_own_In (k : string) (v : Prim) (ps : list (string * Prim)) :
  In (k, v) ps -> has_own k ps = true.
Proof.
  induction ps as [|[k2 v2] ps IH]; simpl; [tauto|].
  intros [[= -> ->]|H].
  - now rewrite String.eqb_refl.
  - destruct (k =? k2); [reflexivity | now apply IH].
Qed.

Lemma add_row_pristine (obj : JsObject) (row : NodeRow.t) :
  pristine obj ->
  (NodeRow.key row = Some "__proto__" -> NodeRow.value row <> PNull) ->
  pristine (add_row obj row)
  /\ (key_of row = "__proto__" -> add_row obj row = obj).
Proof.
  intros [Hproto Hown] Hvalue.
  destruct (scalar_row row && has_key row) eqn:Hkept.
  - rewrite add_row_kept by assumption.
    apply andb_prop in Hkept. destruct Hkept as [_ Hkey].
    destruct (has_key_key_of _ Hkey) as [Hsome _].
    unfold assign, set_property.
    destruct (key_of row =? "__proto__") eqn:E.
    + apply String.eqb_eq in E. rewrite E in *. rewrite Hown, Hproto. simpl.
      specialize (Hvalue Hsome).
      destruct (NodeRow.value row); try congruence;
        (split; [now split | reflexivity]).
    + split; [|intros H; apply String.eqb_neq in E; congruence].
      rewrite String.eqb_sym in E.
      destruct (has_own (key_of row) (own obj)); simpl.
      * split; simpl; [assumption|]. now rewrite has_own_update_own.
      * split; simpl; [assumption|]. rewrite has_own_app, Hown. simpl. exact E.
  - rewrite add_row_skipped by assumption. split; [now split | reflexivity].
Qed.

Lemma fold_add_row_pristine (rows : list NodeRow.t) :
  (forall row, In row rows ->
     NodeRow.key row = Some "__proto__" -> NodeRow.value row <> PNull) ->
  forall obj,
    pristine obj ->
    pristine (fold_left add_row rows obj)
    /\ fold_left add_row rows obj = fold_left add_row (without_proto rows) obj.
Proof.
  induction rows as [|row rows IH]; intros Hvalues obj Hobj; simpl.
  - now split.
  - assert (Hrow : NodeRow.key row = Some "__proto__" -> NodeRow.value row <> PNull)
      by (apply Hvalues; now left).
    destruct (add_row_pristine row Hobj Hrow) as [Hnext Hsame].
    assert (Hrest : forall r, In r rows ->
              NodeRow.key r = Some "__proto__" -> NodeRow.value r <> PNull)
      by (intros r Hr; apply Hvalues; now right).
    destruct (IH Hrest _ Hnext) as [Hfinal Heq].
    split; [exact Hfinal|].
    destruct (key_of row =? "__proto__") eqn:E; simpl.
    + apply String.eqb_eq in E. rewrite (Hsame E) in *. exact Heq.
    + exact Heq.
Qed.

(** X12: a row keyed [__proto__] whose value is not [null] never becomes an
    entry: when no row keyed [__proto__] has the value [null], the object is
    the one the other rows build, and no entry of it is named [__proto__]. *)
Theorem proto_rows_leave_no_entry (rows : list NodeRow.t) :
  (forall row, In row rows ->
     NodeRow.key row = Some "__proto__" -> NodeRow.value row <> PNull) ->
  fold_left add_row rows empty_object
  = fold_left add_row (without_proto rows) empty_object
  /\ forall v, ~ In ("__proto__", v)
                    (own_entries (fold_left add_row rows empty_object)).
Proof.
  intros Hvalues.
  assert (Hstart : pristine empty_object) by (split; reflexivity).
  destruct (fold_add_row_pristine rows Hvalues Hstart) as [[_ Hown] Heq].
  split; [exact Heq|].
  intros v Hin. apply In_own_entries in Hin.
  apply has_own_In in Hin. congruence.
Qed.

Lemma proto_rows_leave_no_entry_witness :
  fold_left add_row
    [NodeRow.mk (Some "__proto__") (PString "x") (Some "string");
     NodeRow.mk (Some "a") (PNumber 2) (Some "number")] empty_object
  = fold_left add_row [NodeRow.mk (Some "a") (PNumber 2) (Some "number")]
      empty_object.
Proof.
  apply proto_rows_leave_no_entry.
  intros row [<-|[<-|[]]]; simpl; intros H; discriminate.
Defined.

(** ** Rows with distinct ordinary keys *)

Lemma own_fold_assign (rs : list NodeRow.t) :
  forall obj,
    NoDup (map key_of rs) ->
    (forall r, In r rs -> key_of r <> "__proto__") ->
    (forall r, In r rs -> has_own (key_of r) (own obj) = false) ->
    own (fold_left assign rs obj) = (own obj ++ map entry_of rs)%list.
Proof.
  induction rs as [|row rs IH]; intros obj Hnodup Hproto Hfresh; simpl.
  - now rewrite app_nil_r.
  - inversion Hnodup as [|k ks Hnotin Hnodup']; subst.
    assert (Hstep : own (assign obj row) = (own obj ++ [entry_of row])%list).
    { unfold assign, set_property.
      rewrite (Hfresh row) by now left.
      assert (Hp : key_of row <> "__proto__") by (apply Hproto; now left).
      apply String.eqb_neq in Hp. rewrite Hp. reflexivity. }
    rewrite IH.
    + rewrite Hstep, <- app_assoc. reflexivity.
    + assumption.
    + intros r Hr. apply Hproto. now right.
    + intros r Hr. rewrite Hstep. unfold entry_of. rewrite has_own_app.
      rewrite (Hfresh r) by now right. simpl.
      apply String.eqb_neq. intros Heq. apply Hnotin.
      rewrite <- Heq. now apply in_map.
Qed.

Lemma own_entries_ordinary (obj : JsObject) :
  (forall kv, In kv (own obj) -> array_index (fst kv) = None) ->
  own_entries obj = own obj.
Proof.
  unfold own_entries. generalize (own obj). intros ps Hps.
  assert (H : index_entries ps = [] /\ named_entries ps = ps).
  { induction ps as [|[k v] ps IH]; [now split|].
    assert (Hk : array_index k = None) by (apply (Hps (k, v)); now left).
    destruct IH as [Hidx Hnamed]; [intros kv Hkv; apply Hps; now right|].
    unfold named_entries in *. simpl. rewrite Hk.
    split; [exact Hidx | now rewrite Hnamed]. }
  destruct H as [-> ->]. reflexivity.
Qed.

(** X13: when the rows the loop keeps have distinct keys, none of them
    [__proto__] or an array index, the text lists them in the order of the
    rows, one line for each row whose value is defined. *)
Theorem normalize_lists_kept_rows (rows : list NodeRow.t) :
  object_case rows = true ->
  NoDup (map key_of (kept_rows rows)) ->
  forallb (fun row => ordinary_key (key_of row)) (kept_rows rows) = true ->
  normalizeNodeData (Some rows) = spec_pretty (map entry_of (kept_rows rows)).
Proof.
  intros Hcase Hnodup Hordinary.
  rewrite forallb_forall in Hordinary.
  assert (Hkeys : forall r, In r (kept_rows rows) ->
            key_of r <> "__proto__" /\ array_index (key_of r) = None).
  { intros r Hr. specialize (Hordinary r Hr). unfold ordinary_key in Hordinary.
    apply andb_prop in Hordinary. destruct Hordinary as [Hp Hi].
    split.
    - apply String.eqb_neq. now destruct (key_of r =? "__proto__").
    - now destruct (array_index (key_of r)). }
  rewrite normalize_object_case by assumption.
  rewrite JSON_stringify_pretty, fold_add_row_filter.
  fold (kept_rows rows).
  assert (Hown : own (fold_left assign (kept_rows rows) empty_object)
                 = map entry_of (kept_rows rows)).
  { rewrite own_fold_assign; [reflexivity | assumption | | reflexivity].
    intros r Hr. now apply Hkeys. }
  rewrite own_entries_ordinary; [now rewrite Hown|].
  rewrite Hown. intros kv Hkv. apply in_map_iff in Hkv.
  destruct Hkv as (r & <- & Hr). now apply Hkeys.
Qed.

Lemma normalize_lists_kept_rows_witness :
  normalizeNodeData
    (Some [NodeRow.mk (Some "id") (PNumber 7) (Some "number");
           NodeRow.mk (Some "tags") PNull (Some "array");
           NodeRow.mk (Some "ok") (PBool true) (Some "boolean")])
  = "{" ++ LF ++ "  " ++ DQUOTE ++ "id" ++ DQUOTE ++ ": 7," ++ LF
        ++ "  " ++ DQUOTE ++ "ok" ++ DQUOTE ++ ": true" ++ LF ++ "}".
Proof.
  rewrite normalize_lists_kept_rows.
  - reflexivity.
  - reflexivity.
  - simpl. repeat constructor; simpl; intuition discriminate.
  - reflexivity.
Defined.

(* ================================================================== *)
(** * A save that goes through *)
(* ================================================================== *)

Section SavedSession.
Context {imports : Imports}.

(** X14: when the Save button is on the screen and the patch returns
    [newJson], the click leaves the dialog closed and Viewing, with the new
    text in both stores, no unsaved changes, no error even if an earlier
    save had failed, and the typed draft replaced by the normalized rows of
    the selected node. *)
Theorem successful_save_resets_session
        (s : Session) (nodeData : NodeData.t) (newJson : string) :
  enabled ClickSave s = true ->
  selectedNode s = Some nodeData ->
  patchDocument (json s) (path_of nodeData) (parsedDraft s) = inr newJson ->
  dispatch ClickSave s
  = {| selectedNode := Some nodeData; json := newJson;
       fileContents := newJson; fileHasChanges := false; opened := false;
       editing := false;
       value := normalizeNodeData (Some (NodeData.text nodeData));
       error := None |}.
Proof.
  intros Hen Hnode Hpatch.
  unfold enabled, shows in Hen. simpl in Hen.
  apply andb_prop in Hen. destruct Hen as [Hopen _].
  unfold dispatch, run.
  rewrite (handleSave_selected _ Hnode), Hpatch.
  unfold rerender. cbn [snd committed opened]. rewrite Hopen. cbn [Bool.eqb].
  unfold run, resetEffect, bind, observe, setEditing, setError, setValue,
    update.
  cbn [snd committed selectedNode json fileContents fileHasChanges opened
       editing value error].
  now rewrite Hnode.
Qed.
End SavedSession.

Lemma successful_save_resets_session_witness :
  @dispatch Scalar.imports ClickSave
    {| selectedNode := Some root_node; json := "42"; fileContents := "42";
       fileHasChanges := true; opened := true; editing := true;
       value := "abc"; error := Some "Overlapping edit" |}
  = {| selectedNode := Some root_node;
       json := DQUOTE ++ "abc" ++ DQUOTE;
       fileContents := DQUOTE ++ "abc" ++ DQUOTE;
       fileHasChanges := false; opened := false; editing := false;
       value := "42"; error := None |}.
Proof.
  apply (@successful_save_resets_session Scalar.imports
           {| selectedNode := Some root_node; json := "42"; fileContents := "42";
              fileHasChanges := true; opened := true; editing := true;
              value := "abc"; error := Some "Overlapping edit" |}
           root_node (DQUOTE ++ "abc" ++ DQUOTE));
    reflexivity.
Defined.
